(** * Video-Call-translator: the framed transport and the stage loops of
  [main.py], embedded in Rocq.

  The development follows the layout of [class VideoCallTranslator]:

  - [Wire]     the byte-level helpers the transport uses: [struct.pack] and
               [struct.unpack] at format ["!BQ"], and the strict UTF-8 codec
               behind [str.encode('utf-8')] / [bytes.decode('utf-8')];
  - [Py]       Python exceptions and the state-and-exception monad in which
               the methods are written;
  - the methods themselves, one definition per method (one loop iteration
    for the [while self.running] loops), inside a section whose variables
    are the external collaborators (OpenCV, pickle);
  - the theorems.

  Integers are [Z] (Python integers are unbounded); the two places where
  the code narrows them, [struct.pack]'s range checks, are written out. *)

From Stdlib Require Import ZArith List Bool Lia ZifyBool String Ascii.
From Stdlib Require Import Strings.Byte DecimalString.
Import ListNotations.

Local Open Scope Z_scope.

(* ===================================================================== *)
(** ** Python exceptions *)
(* ===================================================================== *)

Module Py.

(** A Python [str]: the sequence of its code points. *)
Definition str := list Z.

(** A [str] literal of the source, written as a Rocq string. *)
Definition lit (s : string) : str :=
  map (fun a => Z.of_N (N_of_ascii a)) (list_ascii_of_string s).
Arguments lit s : simpl never.

(** The exception classes the program names in an [except] clause, or that
    the modelled library calls raise.  All of them derive from
    [Exception]; [SystemExit] and [KeyboardInterrupt] are outside the
    model. *)
Inductive exn_class :=
| ConnectionResetError
| BrokenPipeError
| socket_timeout
| struct_error
| UnicodeEncodeError
| UnicodeDecodeError
| AttributeError
| WaitTimeoutError
| UnknownValueError
| RequestError
| OtherException.

Definition exn_class_eqb (a b : exn_class) : bool :=
  match a, b with
  | ConnectionResetError, ConnectionResetError
  | BrokenPipeError, BrokenPipeError
  | socket_timeout, socket_timeout
  | struct_error, struct_error
  | UnicodeEncodeError, UnicodeEncodeError
  | UnicodeDecodeError, UnicodeDecodeError
  | AttributeError, AttributeError
  | WaitTimeoutError, WaitTimeoutError
  | UnknownValueError, UnknownValueError
  | RequestError, RequestError
  | OtherException, OtherException => true
  | _, _ => false
  end.

(** An exception object: its class and [str(e)]. *)
Record exn := Exn { exn_cls : exn_class; exn_msg : str }.

(** [isinstance(e, (c1, c2, ...))] for the classes above (none of them is
    a subclass of another one of them). *)
Definition isinstance (e : exn) (cs : list exn_class) : bool :=
  existsb (exn_class_eqb (exn_cls e)) cs.
Arguments isinstance e cs : simpl never.

(** The outcome of evaluating a Python expression. *)
Inductive result (A : Type) :=
| Ok (a : A)
| Raise (e : exn).
Arguments Ok {A} a.
Arguments Raise {A} e.

End Py.
Import Py.

(* ===================================================================== *)
(** ** The wire helpers: [struct] at ["!BQ"] and UTF-8 *)
(* ===================================================================== *)

Module Wire.

Definition bytes := list byte.

Definition Z_of_byte (b : byte) : Z := Z.of_N (Byte.to_N b).

(** The byte whose value is [z mod 256]. *)
Definition byte_of_Z (z : Z) : byte :=
  match Byte.of_N (Z.to_N (z mod 256)) with
  | Some b => b
  | None => x00
  end.

(** [len(b)] *)
Definition len {A} (l : list A) : Z := Z.of_nat (List.length l).

(** [k] bytes of [n], most significant first (network order, ["!"]). *)
Fixpoint to_be (k : nat) (n : Z) : bytes :=
  match k with
  | O => []
  | S k' => byte_of_Z (n / 256 ^ Z.of_nat k') :: to_be k' n
  end.

Definition from_be (bs : bytes) : Z :=
  fold_left (fun acc b => acc * 256 + Z_of_byte b) bs 0.

(** [struct.pack("!BQ", tag, n)]: one unsigned byte, then an unsigned
    64-bit integer in network order, no padding.  [struct.error] when an
    argument is out of range for its field. *)
Definition struct_pack_BQ (tag n : Z) : result bytes :=
  if (0 <=? tag) && (tag <=? 255) && (0 <=? n) && (n <? 2 ^ 64)
  then Ok (byte_of_Z tag :: to_be 8 n)
  else Raise (Exn struct_error (lit "argument out of range")).

(** [struct.unpack("!BQ", header)]: [struct.error] unless the buffer has
    exactly 9 bytes. *)
Definition struct_unpack_BQ (header : bytes) : result (Z * Z) :=
  match header with
  | t :: rest =>
      if len header =? 9 then Ok (Z_of_byte t, from_be rest)
      else Raise (Exn struct_error (lit "unpack requires a buffer of 9 bytes"))
  | [] => Raise (Exn struct_error (lit "unpack requires a buffer of 9 bytes"))
  end.

(** *** UTF-8 *)

Definition is_surrogate (c : Z) : bool := (0xD800 <=? c) && (c <=? 0xDFFF).

(** The UTF-8 bytes of one code point; [None] for a lone surrogate (and
    for a number that is no code point). *)
Definition utf8_encode_cp (c : Z) : option bytes :=
  if c <? 0 then None
  else if c <? 0x80 then Some [byte_of_Z c]
  else if c <? 0x800 then
    Some [byte_of_Z (0xC0 + c / 64); byte_of_Z (0x80 + c mod 64)]
  else if c <? 0x10000 then
    if is_surrogate c then None
    else Some [byte_of_Z (0xE0 + c / 4096);
               byte_of_Z (0x80 + (c / 64) mod 64);
               byte_of_Z (0x80 + c mod 64)]
  else if c <=? 0x10FFFF then
    Some [byte_of_Z (0xF0 + c / 262144);
          byte_of_Z (0x80 + (c / 4096) mod 64);
          byte_of_Z (0x80 + (c / 64) mod 64);
          byte_of_Z (0x80 + c mod 64)]
  else None.

Fixpoint utf8_encode_cps (s : str) : option bytes :=
  match s with
  | [] => Some []
  | c :: s' =>
      match utf8_encode_cp c, utf8_encode_cps s' with
      | Some b, Some bs => Some (b ++ bs)
      | _, _ => None
      end
  end.

(** [s.encode('utf-8')] *)
Definition str_encode_utf8 (s : str) : result bytes :=
  match utf8_encode_cps s with
  | Some bs => Ok bs
  | None => Raise (Exn UnicodeEncodeError (lit "surrogates not allowed"))
  end.

Definition is_cont (b : Z) : bool := (0x80 <=? b) && (b <=? 0xBF).

(** Strict UTF-8 decoding: shortest form only, no surrogates, nothing
    above U+10FFFF. *)
Fixpoint utf8_decode_cps (bs : bytes) : option str :=
  match bs with
  | [] => Some []
  | b0 :: r0 =>
      let z0 := Z_of_byte b0 in
      if z0 <? 0x80 then option_map (cons z0) (utf8_decode_cps r0)
      else match r0 with
      | [] => None
      | b1 :: r1 =>
          let z1 := Z_of_byte b1 in
          if negb (is_cont z1) then None
          else if (0xC2 <=? z0) && (z0 <=? 0xDF) then
            option_map (cons ((z0 - 0xC0) * 64 + (z1 - 0x80)))
                       (utf8_decode_cps r1)
          else match r1 with
          | [] => None
          | b2 :: r2 =>
              let z2 := Z_of_byte b2 in
              if negb (is_cont z2) then None
              else if (0xE0 <=? z0) && (z0 <=? 0xEF) then
                let c := (z0 - 0xE0) * 4096 + (z1 - 0x80) * 64 + (z2 - 0x80) in
                if (c <? 0x800) || is_surrogate c then None
                else option_map (cons c) (utf8_decode_cps r2)
              else match r2 with
              | [] => None
              | b3 :: r3 =>
                  let z3 := Z_of_byte b3 in
                  if negb (is_cont z3) then None
                  else if (0xF0 <=? z0) && (z0 <=? 0xF4) then
                    let c := (z0 - 0xF0) * 262144 + (z1 - 0x80) * 4096
                             + (z2 - 0x80) * 64 + (z3 - 0x80) in
                    if (c <? 0x10000) || (0x10FFFF <? c) then None
                    else option_map (cons c) (utf8_decode_cps r3)
                  else None
              end
          end
      end
  end.

(** [data.decode('utf-8')] *)
Definition bytes_decode_utf8 (data : bytes) : result str :=
  match utf8_decode_cps data with
  | Some s => Ok s
  | None => Raise (Exn UnicodeDecodeError (lit "invalid utf-8"))
  end.

End Wire.
Import Wire.

(* ===================================================================== *)
(** ** The state-and-exception monad of the methods *)
(* ===================================================================== *)

(** A socket object, by identity: in client mode [self.connection] and
  [self.socket] are the same object. *)
Definition handle := nat.

(** Control leaving a piece of a loop body: fall off its end, [continue],
  or [break]. *)
Inductive ctl := Fallthrough | Continue | Break.

(** How a bounded run of a [while] loop ended: the loop exited, or the
  bound on the number of iterations was reached with the loop still
  running. *)
Inductive loop_status := Exited | StillRunning.

Section Translator.

(** The external collaborators: OpenCV images and the operations on them,
    recorded audio, and [pickle]. *)
Context {frame audio : Type}.

(** The values that travel through [network_queue] and [pickle]. *)
Inductive pyobj :=
| PyNone
| PyStr (s : str)
| PyFrame (f : frame).

Context (cv2_resize : frame -> Z * Z -> frame).
Context (cv2_putText : frame -> str -> Z * Z -> frame).
Context (pickle_dumps : pyobj -> bytes).
Context (pickle_loads : bytes -> result pyobj).

(** The attributes of [VideoCallTranslator] the methods read or write. *)
Record self := mkSelf {
  audio_queue : list audio;
  text_queue : list str;
  translation_queue : list str;
  network_queue : list (str * pyobj);
  source_lang : str;
  target_lang : str;
  running : bool;
  translating : bool;
  in_call : bool;
  is_host : bool;
  socket : option handle;
  connection : option handle;
  host : str;
  port : Z;
  remote_frame : pyobj
}.

Definition frame_size : Z * Z := (640, 480).

(** What the outside world answers to the calls the program makes, one
    list per kind of call, consumed front to back. *)
Record world := mkWorld {
  listen_replies : list (result audio);     (* recognizer.listen *)
  asr_replies : list (result str);          (* recognizer.recognize_google *)
  mt_replies : list (result str);           (* translator.translate(...).text *)
  tts_replies : list (result bytes);        (* gTTS(...).write_to_fp *)
  mixer_replies : list (result unit);       (* pygame.mixer.music.load / play *)
  cam_replies : list (option frame);        (* cap.read: None is ret = False *)
  key_replies : list Z;                     (* cv2.waitKey *)
  setup_replies : list (result unit);       (* bind, listen, accept, connect *)
  sendall_replies : list (result unit);     (* connection.sendall *)
  recv_replies : list (result bytes);       (* connection.recv *)
  teardown_replies : list (result unit);    (* release, quit, close *)
  next_handle : handle;                     (* identity of the next socket *)
  peer : str                                (* the address accept reports *)
}.

(** The calls the program makes on the outside world, in program order. *)
Inductive event :=
| E_print (line : str)
| E_sleep
| E_listen
| E_recognize (a : audio) (language : str)
| E_translate (text src dest : str)
| E_gtts (text lang : str)
| E_music_load (fp : bytes)
| E_music_play
| E_cap_read
| E_imshow (window : str) (img : pyobj)
| E_waitKey
| E_cap_release
| E_destroyAllWindows
| E_pygame_quit
| E_socket (h : handle)
| E_setsockopt (h : handle)
| E_bind (h : handle) (addr : str * Z)
| E_sock_listen (h : handle)
| E_accept (h conn : handle)
| E_connect (h : handle) (addr : str * Z)
| E_settimeout (h : handle)
| E_sendall (h : handle) (data : bytes)
| E_recv (h : handle) (bufsize : Z)
| E_close (h : handle).

(** The socket operations among the events. *)
Definition is_socket_op (e : event) : bool :=
  match e with
  | E_socket _ | E_setsockopt _ | E_bind _ _ | E_sock_listen _
  | E_accept _ _ | E_connect _ _ | E_settimeout _
  | E_sendall _ _ | E_recv _ _ | E_close _ => true
  | _ => false
  end.

Record machine := mkMachine {
  me : self;
  env : world;
  out : list event
}.

Definition M (A : Type) : Type := machine -> result A * machine.

Definition ret {A} (a : A) : M A := fun m => (Ok a, m).

Definition bind {A B} (c : M A) (k : A -> M B) : M B :=
  fun m => match c m with
           | (Ok a, m') => k a m'
           | (Raise e, m') => (Raise e, m')
           end.

Definition raise {A} (e : exn) : M A := fun m => (Raise e, m).

Definition lift {A} (r : result A) : M A := fun m => (r, m).

(** [try: body / except ...: handler]: [handler e] is [None] when no
    clause matches [e].  What [body] did before raising stays done. *)
Definition try_except {A} (body : M A) (handler : exn -> option (M A)) : M A :=
  fun m => match body m with
           | (Ok a, m') => (Ok a, m')
           | (Raise e, m') =>
               match handler e with
               | Some h => h m'
               | None => (Raise e, m')
               end
           end.

(** [try: body / finally: final] *)
Definition try_finally {A} (body : M A) (final : M unit) : M A :=
  fun m => match body m with
           | (r, m') =>
               match final m' with
               | (Ok _, m'') => (r, m'')
               | (Raise e, m'') => (Raise e, m'')
               end
           end.

Definition get_self : M self := fun m => (Ok (me m), m).

Definition modify_self (f : self -> self) : M unit :=
  fun m => (Ok tt, mkMachine (f (me m)) (env m) (out m)).

Definition emit (e : event) : M unit :=
  fun m => (Ok tt, mkMachine (me m) (env m) (out m ++ [e])).

(** The next answer of the world to one kind of call; [default] once the
    list is used up. *)
Definition reply {R} (get : world -> list R) (set : list R -> world -> world)
           (default : R) : M R :=
  fun m => match get (env m) with
           | r :: rs => (Ok r, mkMachine (me m) (set rs (env m)) (out m))
           | [] => (Ok default, m)
           end.

(** *** Attribute assignment *)

Definition set_audio_queue (q : list audio) (s : self) : self :=
  mkSelf q (text_queue s) (translation_queue s) (network_queue s)
         (source_lang s) (target_lang s) (running s) (translating s)
         (in_call s) (is_host s) (socket s) (connection s) (host s) (port s)
         (remote_frame s).

Definition set_text_queue (q : list str) (s : self) : self :=
  mkSelf (audio_queue s) q (translation_queue s) (network_queue s)
         (source_lang s) (target_lang s) (running s) (translating s)
         (in_call s) (is_host s) (socket s) (connection s) (host s) (port s)
         (remote_frame s).

Definition set_translation_queue (q : list str) (s : self) : self :=
  mkSelf (audio_queue s) (text_queue s) q (network_queue s)
         (source_lang s) (target_lang s) (running s) (translating s)
         (in_call s) (is_host s) (socket s) (connection s) (host s) (port s)
         (remote_frame s).

Definition set_network_queue (q : list (str * pyobj)) (s : self) : self :=
  mkSelf (audio_queue s) (text_queue s) (translation_queue s) q
         (source_lang s) (target_lang s) (running s) (translating s)
         (in_call s) (is_host s) (socket s) (connection s) (host s) (port s)
         (remote_frame s).

Definition set_running (b : bool) (s : self) : self :=
  mkSelf (audio_queue s) (text_queue s) (translation_queue s) (network_queue s)
         (source_lang s) (target_lang s) b (translating s)
         (in_call s) (is_host s) (socket s) (connection s) (host s) (port s)
         (remote_frame s).

Definition set_socket (h : option handle) (s : self) : self :=
  mkSelf (audio_queue s) (text_queue s) (translation_queue s) (network_queue s)
         (source_lang s) (target_lang s) (running s) (translating s)
         (in_call s) (is_host s) h (connection s) (host s) (port s)
         (remote_frame s).

Definition set_connection (h : option handle) (s : self) : self :=
  mkSelf (audio_queue s) (text_queue s) (translation_queue s) (network_queue s)
         (source_lang s) (target_lang s) (running s) (translating s)
         (in_call s) (is_host s) (socket s) h (host s) (port s)
         (remote_frame s).

Definition set_remote_frame (o : pyobj) (s : self) : self :=
  mkSelf (audio_queue s) (text_queue s) (translation_queue s) (network_queue s)
         (source_lang s) (target_lang s) (running s) (translating s)
         (in_call s) (is_host s) (socket s) (connection s) (host s) (port s)
         o.

(** [__init__]: the attributes before the menus run. *)
Definition init_self : self :=
  mkSelf [] [] [] [] (lit "en") (lit "hi") false true false false
         None None (lit "0.0.0.0") 5000 PyNone.

(** *** The world's answers, one setter per kind of call *)

Definition set_listen_replies l (w : world) : world :=
  mkWorld l (asr_replies w) (mt_replies w) (tts_replies w) (mixer_replies w)
          (cam_replies w) (key_replies w) (setup_replies w)
          (sendall_replies w) (recv_replies w) (teardown_replies w)
          (next_handle w) (peer w).

Definition set_asr_replies l (w : world) : world :=
  mkWorld (listen_replies w) l (mt_replies w) (tts_replies w) (mixer_replies w)
          (cam_replies w) (key_replies w) (setup_replies w)
          (sendall_replies w) (recv_replies w) (teardown_replies w)
          (next_handle w) (peer w).

Definition set_mt_replies l (w : world) : world :=
  mkWorld (listen_replies w) (asr_replies w) l (tts_replies w) (mixer_replies w)
          (cam_replies w) (key_replies w) (setup_replies w)
          (sendall_replies w) (recv_replies w) (teardown_replies w)
          (next_handle w) (peer w).

Definition set_tts_replies l (w : world) : world :=
  mkWorld (listen_replies w) (asr_replies w) (mt_replies w) l (mixer_replies w)
          (cam_replies w) (key_replies w) (setup_replies w)
          (sendall_replies w) (recv_replies w) (teardown_replies w)
          (next_handle w) (peer w).

Definition set_mixer_replies l (w : world) : world :=
  mkWorld (listen_replies w) (asr_replies w) (mt_replies w) (tts_replies w) l
          (cam_replies w) (key_replies w) (setup_replies w)
          (sendall_replies w) (recv_replies w) (teardown_replies w)
          (next_handle w) (peer w).

Definition set_cam_replies l (w : world) : world :=
  mkWorld (listen_replies w) (asr_replies w) (mt_replies w) (tts_replies w)
          (mixer_replies w) l (key_replies w) (setup_replies w)
          (sendall_replies w) (recv_replies w) (teardown_replies w)
          (next_handle w) (peer w).

Definition set_key_replies l (w : world) : world :=
  mkWorld (listen_replies w) (asr_replies w) (mt_replies w) (tts_replies w)
          (mixer_replies w) (cam_replies w) l (setup_replies w)
          (sendall_replies w) (recv_replies w) (teardown_replies w)
          (next_handle w) (peer w).

Definition set_setup_replies l (w : world) : world :=
  mkWorld (listen_replies w) (asr_replies w) (mt_replies w) (tts_replies w)
          (mixer_replies w) (cam_replies w) (key_replies w) l
          (sendall_replies w) (recv_replies w) (teardown_replies w)
          (next_handle w) (peer w).

Definition set_sendall_replies l (w : world) : world :=
  mkWorld (listen_replies w) (asr_replies w) (mt_replies w) (tts_replies w)
          (mixer_replies w) (cam_replies w) (key_replies w) (setup_replies w)
          l (recv_replies w) (teardown_replies w)
          (next_handle w) (peer w).

Definition set_recv_replies l (w : world) : world :=
  mkWorld (listen_replies w) (asr_replies w) (mt_replies w) (tts_replies w)
          (mixer_replies w) (cam_replies w) (key_replies w) (setup_replies w)
          (sendall_replies w) l (teardown_replies w)
          (next_handle w) (peer w).

Definition set_teardown_replies l (w : world) : world :=
  mkWorld (listen_replies w) (asr_replies w) (mt_replies w) (tts_replies w)
          (mixer_replies w) (cam_replies w) (key_replies w) (setup_replies w)
          (sendall_replies w) (recv_replies w) l
          (next_handle w) (peer w).

Definition set_next_handle h (w : world) : world :=
  mkWorld (listen_replies w) (asr_replies w) (mt_replies w) (tts_replies w)
          (mixer_replies w) (cam_replies w) (key_replies w) (setup_replies w)
          (sendall_replies w) (recv_replies w) (teardown_replies w)
          h (peer w).

Local Notation "x <- c ;; k" := (bind c (fun x => k))
  (at level 61, c at next level, right associativity).
Local Notation "c ;;; k" := (bind c (fun _ => k))
  (at level 61, right associativity).

(** *** The calls on the outside world *)

Definition print (line : str) : M unit := emit (E_print line).

(** [str(n)] for an integer, as in an f-string. *)
Definition str_of_int (n : Z) : str := lit (NilZero.string_of_int (Z.to_int n)).

(** [time.sleep(0.1)] *)
Definition sleep : M unit := emit E_sleep.

(** [self.recognizer.listen(source, timeout=2, phrase_time_limit=5)] *)
Definition recognizer_listen : M audio :=
  emit E_listen ;;;
  r <- reply listen_replies set_listen_replies
             (Raise (Exn WaitTimeoutError (lit "listening timed out"))) ;;
  lift r.

(** [self.recognizer.recognize_google(audio, language=...)] *)
Definition recognize_google (a : audio) (language : str) : M str :=
  emit (E_recognize a language) ;;;
  r <- reply asr_replies set_asr_replies
             (Raise (Exn UnknownValueError [])) ;;
  lift r.

(** [self.translator.translate(text, src=..., dest=...).text] *)
Definition translator_translate (text src dest : str) : M str :=
  emit (E_translate text src dest) ;;;
  r <- reply mt_replies set_mt_replies
             (Raise (Exn OtherException (lit "translation unavailable"))) ;;
  lift r.

(** [gTTS(text, lang=...)] followed by [write_to_fp(fp)] and [fp.seek(0)]:
    the synthesized audio. *)
Definition gtts_to_fp (text lang : str) : M bytes :=
  emit (E_gtts text lang) ;;;
  r <- reply tts_replies set_tts_replies
             (Raise (Exn OtherException (lit "synthesis unavailable"))) ;;
  lift r.

Definition mixer_call (e : event) : M unit :=
  emit e ;;;
  r <- reply mixer_replies set_mixer_replies (Ok tt) ;;
  lift r.

(** [self.cap.read()]: [None] stands for [ret = False]. *)
Definition cap_read : M (option frame) :=
  emit E_cap_read ;;;
  reply cam_replies set_cam_replies None.

(** [cv2.waitKey(1)]: -1 when no key was pressed. *)
Definition cv2_waitKey : M Z :=
  emit E_waitKey ;;;
  reply key_replies set_key_replies (-1).

(** [socket.socket(AF_INET, SOCK_STREAM)]: a new socket object. *)
Definition socket_socket : M handle :=
  fun m =>
    let h := next_handle (env m) in
    (Ok h, mkMachine (me m) (set_next_handle (S h) (env m))
                     (out m ++ [E_socket h])).

(** [bind], [listen] and [connect]: they succeed or raise. *)
Definition socket_setup_call (e : event) : M unit :=
  emit e ;;;
  r <- reply setup_replies set_setup_replies (Ok tt) ;;
  lift r.

(** [self.socket.accept()]: a new socket object for the connection, and
    the peer's address. *)
Definition socket_accept (h : handle) : M (handle * str) :=
  fun m =>
    let c := next_handle (env m) in
    let m1 := mkMachine (me m) (set_next_handle (S c) (env m))
                        (out m ++ [E_accept h c]) in
    match reply setup_replies set_setup_replies (Ok tt) m1 with
    | (Ok (Ok _), m2) => (Ok (c, peer (env m2)), m2)
    | (Ok (Raise e), m2) => (Raise e, m2)
    | (Raise e, m2) => (Raise e, m2)
    end.

(** [conn.sendall(data)] *)
Definition sendall (conn : handle) (data : bytes) : M unit :=
  emit (E_sendall conn data) ;;;
  r <- reply sendall_replies set_sendall_replies (Ok tt) ;;
  lift r.

(** [conn.recv(bufsize)] on a socket with a timeout: the bytes received
    ([b''] at end of stream), or an exception; [socket.timeout] when
    nothing more arrives. *)
Definition recv (conn : handle) (bufsize : Z) : M bytes :=
  emit (E_recv conn bufsize) ;;;
  r <- reply recv_replies set_recv_replies
             (Raise (Exn socket_timeout (lit "timed out"))) ;;
  lift r.

(** [cap.release()], [cv2.destroyAllWindows()], [pygame.quit()] and
    [close()]: they succeed or raise. *)
Definition teardown_call (e : event) : M unit :=
  emit e ;;;
  r <- reply teardown_replies set_teardown_replies (Ok tt) ;;
  lift r.

(** [self.connection], for a method call on it: [None] has no methods. *)
Definition the_connection : M handle :=
  s <- get_self ;;
  match connection s with
  | Some c => ret c
  | None => raise (Exn AttributeError (lit "'NoneType' object has no attribute"))
  end.

(** *** [audio_capture_thread]: the body of [while self.running] *)
Definition audio_capture_iteration : M unit :=
  try_except
    (a <- recognizer_listen ;;
     modify_self (fun s => set_audio_queue (audio_queue s ++ [a]) s))
    (fun e =>
       if isinstance e [WaitTimeoutError] then Some (ret tt)
       else Some (print (lit "Audio capture error: " ++ exn_msg e) ;;; sleep)).

(** *** [speech_recognition_thread]: the body of [while self.running] *)
Definition speech_recognition_iteration : M unit :=
  s <- get_self ;;
  match audio_queue s with
  | [] => ret tt
  | a :: rest =>
      modify_self (set_audio_queue rest) ;;;
      try_except
        (text <- recognize_google a (source_lang s) ;;
         modify_self (fun s => set_text_queue (text_queue s ++ [text]) s) ;;;
         s1 <- get_self ;;
         if in_call s1
         then modify_self (fun s =>
                set_network_queue (network_queue s ++ [(lit "text", PyStr text)]) s)
         else ret tt)
        (fun e =>
           if isinstance e [UnknownValueError] then Some (ret tt)
           else if isinstance e [RequestError]
           then Some (print (lit "Speech recognition error: " ++ exn_msg e))
           else Some (print (lit "Recognition error: " ++ exn_msg e)))
  end.

(** *** [translation_thread]: the body of [while self.running] *)
Definition translation_iteration : M unit :=
  s <- get_self ;;
  match text_queue s with
  | [] => ret tt
  | text :: rest =>
      modify_self (set_text_queue rest) ;;;
      s1 <- get_self ;;
      if translating s1 then
        try_except
          (translation <- translator_translate text (source_lang s1) (target_lang s1) ;;
           modify_self (fun s =>
             set_translation_queue (translation_queue s ++ [translation]) s) ;;;
           s2 <- get_self ;;
           fp <- gtts_to_fp translation (target_lang s2) ;;
           mixer_call (E_music_load fp) ;;;
           mixer_call E_music_play)
          (fun e => Some (print (lit "Translation error: " ++ exn_msg e)))
      else ret tt
  end.

(** [q.queue[-1]] on a queue that is not empty. *)
Definition peek_last (q : list str) : str := last q [].

(** The two [cv2.putText] overlays of [video_capture_thread]. *)
Definition overlay (s : self) (f : frame) : frame :=
  let f1 :=
    match text_queue s with
    | [] => f
    | _ :: _ => cv2_putText f (lit "Original: " ++ peek_last (text_queue s)) (10, 30)
    end in
  match translation_queue s with
  | [] => f1
  | _ :: _ =>
      if translating s
      then cv2_putText f1 (lit "Translated: " ++ peek_last (translation_queue s)) (10, 70)
      else f1
  end.

(** *** [video_capture_thread]: the body of [while self.running] *)
Definition video_capture_iteration : M unit :=
  r <- cap_read ;;
  match r with
  | None => print (lit "Failed to capture frame") ;;; sleep
  | Some f =>
      s <- get_self ;;
      let f := overlay s (cv2_resize f frame_size) in
      emit (E_imshow (lit "Video Translator") (PyFrame f)) ;;;
      (if in_call s
       then modify_self (fun s =>
              set_network_queue (network_queue s ++ [(lit "video", PyFrame f)]) s)
       else ret tt) ;;;
      s1 <- get_self ;;
      (match remote_frame s1 with
       | PyNone => ret tt
       | o => emit (E_imshow (lit "Remote Video") o)
       end) ;;;
      k <- cv2_waitKey ;;
      if Z.land k 0xFF =? 113 (* ord('q') *)
      then modify_self (set_running false)
      else ret tt
  end.

(** [n] passes of [video_capture_thread]'s loop, no other thread running
    in between. *)
Fixpoint video_passes (n : nat) : M unit :=
  match n with
  | O => ret tt
  | S n' =>
      s <- get_self ;;
      if running s then video_capture_iteration ;;; video_passes n' else ret tt
  end.

(** *** [network_thread] *)

(** [a == b] on strings. *)
Fixpoint str_eqb (a b : str) : bool :=
  match a, b with
  | [], [] => true
  | x :: a', y :: b' => (x =? y) && str_eqb a' b'
  | _, _ => false
  end.

(** [data.encode('utf-8')]: only a [str] has the method. *)
Definition obj_encode_utf8 (o : pyobj) : result bytes :=
  match o with
  | PyStr t => str_encode_utf8 t
  | _ => Raise (Exn AttributeError (lit "object has no attribute 'encode'"))
  end.

(** The statements under [try:] in the [# Send data] block. *)
Definition send_block : M ctl :=
  s <- get_self ;;
  match network_queue s with
  | [] => ret Fallthrough
  | (data_type, data) :: rest =>
      modify_self (set_network_queue rest) ;;;
      if str_eqb data_type (lit "video") then
        let data := pickle_dumps data in
        header <- lift (struct_pack_BQ 0 (len data)) ;;
        conn <- the_connection ;;
        sendall conn (header ++ data) ;;;
        ret Fallthrough
      else if str_eqb data_type (lit "text") then
        data <- lift (obj_encode_utf8 data) ;;
        header <- lift (struct_pack_BQ 1 (len data)) ;;
        conn <- the_connection ;;
        sendall conn (header ++ data) ;;;
        ret Fallthrough
      else ret Fallthrough
  end.

(** The [# Send data] block of the loop body, with its [except] clauses. *)
Definition send_attempt : M ctl :=
  try_except send_block
    (fun e =>
       if isinstance e [ConnectionResetError; BrokenPipeError; socket_timeout]
       then Some (ret Continue)
       else Some (print (lit "Send error: " ++ exn_msg e) ;;; ret Break)).

(** [while received < msg_size: ...]: the pair [(received, chunks)] when
    the loop is left.  Every pass takes one answer of [recv]; [fuel]
    bounds the number of passes and [receive_attempt] gives one more than
    there are answers left, so that the bound is never reached
    ([recv_payload_fuel]). *)
Fixpoint recv_payload (fuel : nat) (msg_size received : Z)
         (chunks : list bytes) : M (Z * list bytes) :=
  match fuel with
  | O => raise (Exn socket_timeout (lit "timed out"))
  | S fuel' =>
      if received <? msg_size then
        conn <- the_connection ;;
        chunk <- recv conn (Z.min (msg_size - received) 4096) ;;
        match chunk with
        | [] => ret (received, chunks)
        | _ :: _ =>
            recv_payload fuel' msg_size (received + len chunk) (chunks ++ [chunk])
        end
      else ret (received, chunks)
  end.

Definition recv_fuel : M nat :=
  fun m => (Ok (S (List.length (recv_replies (env m)))), m).

(** What is done with a complete message. *)
Definition dispatch (msg_type : Z) (data : bytes) : M unit :=
  if msg_type =? 0 then
    try_except
      (o <- lift (pickle_loads data) ;;
       modify_self (set_remote_frame o))
      (fun e => Some (print (lit "Frame unpickling error: " ++ exn_msg e)))
  else if msg_type =? 1 then
    try_except
      (text <- lift (bytes_decode_utf8 data) ;;
       print (lit "Received text: " ++ text))
      (fun e => Some (print (lit "Text decode error: " ++ exn_msg e)))
  else ret tt.

(** The [# Receive data] block of the loop body. *)
Definition receive_attempt : M ctl :=
  try_except
    (conn <- the_connection ;;
     header <- recv conn 9 ;;
     match header with
     | [] => ret Continue
     | _ :: _ =>
         hd <- lift (struct_unpack_BQ header) ;;
         let '(msg_type, msg_size) := hd in
         fuel <- recv_fuel ;;
         rc <- recv_payload fuel msg_size 0 [] ;;
         let '(received, chunks) := rc in
         if received <? msg_size then ret Continue
         else
           dispatch msg_type (List.concat chunks) ;;;
           ret Fallthrough
     end)
    (fun e =>
       if isinstance e [socket_timeout] then Some (ret Continue)
       else if isinstance e [struct_error] then Some (ret Continue)
       else Some (print (lit "Receive error: " ++ exn_msg e) ;;; ret Break)).

(** The body of [while self.running and self.connection]. *)
Definition network_iteration : M ctl :=
  c <- send_attempt ;;
  match c with
  | Fallthrough => receive_attempt
  | _ => ret c
  end.

(** The statements of the [try] block before the loop. *)
Definition network_setup : M unit :=
  s <- get_self ;;
  (if is_host s then
     h <- socket_socket ;;
     modify_self (set_socket (Some h)) ;;;
     emit (E_setsockopt h) ;;;
     socket_setup_call (E_bind h (host s, port s)) ;;;
     socket_setup_call (E_sock_listen h) ;;;
     print (lit "Waiting for connection on " ++ host s ++ lit ":"
            ++ str_of_int (port s) ++ lit "...") ;;;
     ca <- socket_accept h ;;
     modify_self (set_connection (Some (fst ca))) ;;;
     print (lit "Connected to " ++ snd ca)
   else
     h <- socket_socket ;;
     modify_self (set_socket (Some h)) ;;;
     print (lit "Connecting to " ++ host s ++ lit ":"
            ++ str_of_int (port s) ++ lit "...") ;;;
     socket_setup_call (E_connect h (host s, port s)) ;;;
     modify_self (set_connection (Some h)) ;;;
     print (lit "Connected to host")) ;;;
  conn <- the_connection ;;
  emit (E_settimeout conn).

(** The [finally] block. *)
Definition network_finally : M unit :=
  s <- get_self ;;
  (match connection s with
   | Some c => teardown_call (E_close c)
   | None => ret tt
   end) ;;;
  s1 <- get_self ;;
  (match socket s1 with
   | Some h => teardown_call (E_close h)
   | None => ret tt
   end) ;;;
  print (lit "Network connection closed").

(** Where the thread is: before the [try], at the loop test, or finished. *)
Inductive net_pc := NetStart | NetLoop | NetDone.

(** Leaving the [try] block: the [except Exception] clause when an
    exception is in flight, then the [finally] block. *)
Definition network_leave (e : option exn) : M net_pc :=
  try_finally
    (match e with
     | Some e => print (lit "Network setup error: " ++ exn_msg e)
     | None => ret tt
     end)
    network_finally ;;;
  ret NetDone.

(** One step of [network_thread]: from its start to the loop test, or
    one test of the loop condition and one pass of the body. *)
Definition network_thread_step (pc : net_pc) : M net_pc :=
  match pc with
  | NetStart =>
      s <- get_self ;;
      if negb (in_call s) then ret NetDone
      else
        fun m => match network_setup m with
                 | (Ok _, m') => (Ok NetLoop, m')
                 | (Raise e, m') => network_leave (Some e) m'
                 end
  | NetLoop =>
      s <- get_self ;;
      match running s, connection s with
      | true, Some _ =>
          fun m => match network_iteration m with
                   | (Ok Break, m') => network_leave None m'
                   | (Ok _, m') => (Ok NetLoop, m')
                   | (Raise e, m') => network_leave (Some e) m'
                   end
      | _, _ => network_leave None
      end
  | NetDone => ret NetDone
  end.

(** [network_thread] run on its own for at most [fuel] steps. *)
Fixpoint network_thread_from (fuel : nat) (pc : net_pc) : M loop_status :=
  match pc, fuel with
  | NetDone, _ => ret Exited
  | _, O => ret StillRunning
  | _, S fuel' =>
      pc' <- network_thread_step pc ;;
      network_thread_from fuel' pc'
  end.

Definition network_thread (fuel : nat) : M loop_status :=
  network_thread_from fuel NetStart.

(** *** [start] *)

(** The [# Cleanup] statements after [threads[3].join()]. *)
Definition cleanup : M unit :=
  modify_self (set_running false) ;;;
  teardown_call E_cap_release ;;;
  teardown_call E_destroyAllWindows ;;;
  teardown_call E_pygame_quit ;;;
  s <- get_self ;;
  (match connection s with
   | Some c => teardown_call (E_close c)
   | None => ret tt
   end) ;;;
  s1 <- get_self ;;
  (match socket s1 with
   | Some h => teardown_call (E_close h)
   | None => ret tt
   end) ;;;
  print (lit "Program shutdown complete").

(** The five threads; a schedule lists which thread runs next, one pass
    of its loop (one step, for the network thread) at a time. *)
Inductive thread := T_audio | T_speech | T_translation | T_video | T_network.

(** [while self.running: body], one test and one pass. *)
Definition while_running (body : M unit) : M unit :=
  s <- get_self ;;
  if running s then body else ret tt.

(** The threads run until the video thread has left its loop, which is
    what [threads[3].join()] waits for.  A network thread that dies of an
    exception takes no further step. *)
Fixpoint run_threads (schedule : list thread) (pc : net_pc) : M loop_status :=
  match schedule with
  | [] => ret StillRunning
  | t :: rest =>
      match t with
      | T_audio => while_running audio_capture_iteration ;;; run_threads rest pc
      | T_speech => while_running speech_recognition_iteration ;;; run_threads rest pc
      | T_translation => while_running translation_iteration ;;; run_threads rest pc
      | T_video =>
          s <- get_self ;;
          if running s
          then video_capture_iteration ;;; run_threads rest pc
          else ret Exited
      | T_network =>
          pc' <- try_except (network_thread_step pc) (fun _ => Some (ret NetDone)) ;;
          run_threads rest pc'
      end
  end.

(** [start], after the two menus: the threads are started, the video
    thread is joined, and the cleanup runs. *)
Definition start (schedule : list thread) : M loop_status :=
  modify_self (set_running true) ;;;
  st <- run_threads schedule NetStart ;;
  match st with
  | Exited => cleanup ;;; ret Exited
  | StillRunning => ret StillRunning
  end.

(** *** The two menus, [__init__] and the main block *)

(** [int(s)] on a line the user typed: [None] is [ValueError], which in
    this program only [int] raises. *)
Context (py_int : str -> option Z).

(** [self.languages], in the order the dictionary was written. *)
Definition languages : list (str * str) :=
  [(lit "English", lit "en"); (lit "Hindi", lit "hi"); (lit "Spanish", lit "es");
   (lit "French", lit "fr"); (lit "German", lit "de"); (lit "Italian", lit "it");
   (lit "Japanese", lit "ja"); (lit "Chinese", lit "zh-CN");
   (lit "Russian", lit "ru"); (lit "Arabic", lit "ar")].

Definition set_source_lang (l : str) (s : self) : self :=
  mkSelf (audio_queue s) (text_queue s) (translation_queue s) (network_queue s)
         l (target_lang s) (running s) (translating s)
         (in_call s) (is_host s) (socket s) (connection s) (host s) (port s)
         (remote_frame s).

Definition set_target_lang (l : str) (s : self) : self :=
  mkSelf (audio_queue s) (text_queue s) (translation_queue s) (network_queue s)
         (source_lang s) l (running s) (translating s)
         (in_call s) (is_host s) (socket s) (connection s) (host s) (port s)
         (remote_frame s).

Definition set_in_call (b : bool) (s : self) : self :=
  mkSelf (audio_queue s) (text_queue s) (translation_queue s) (network_queue s)
         (source_lang s) (target_lang s) (running s) (translating s)
         b (is_host s) (socket s) (connection s) (host s) (port s)
         (remote_frame s).

Definition set_is_host (b : bool) (s : self) : self :=
  mkSelf (audio_queue s) (text_queue s) (translation_queue s) (network_queue s)
         (source_lang s) (target_lang s) (running s) (translating s)
         (in_call s) b (socket s) (connection s) (host s) (port s)
         (remote_frame s).

Definition set_host (h : str) (s : self) : self :=
  mkSelf (audio_queue s) (text_queue s) (translation_queue s) (network_queue s)
         (source_lang s) (target_lang s) (running s) (translating s)
         (in_call s) (is_host s) (socket s) (connection s) h (port s)
         (remote_frame s).

Definition set_port (p : Z) (s : self) : self :=
  mkSelf (audio_queue s) (text_queue s) (translation_queue s) (network_queue s)
         (source_lang s) (target_lang s) (running s) (translating s)
         (in_call s) (is_host s) (socket s) (connection s) (host s) p
         (remote_frame s).

(** The exceptions of the console: [input] at the end of the input, and
    [int] outside a [try]. *)
Definition end_of_input : exn := Exn OtherException (lit "EOF when reading a line").
Definition not_a_number : exn :=
  Exn OtherException (lit "invalid literal for int() with base 10").

(** [input(prompt)]: the prompt is written to the console (recorded as a
    printed line), then the next line the user typed is returned;
    [EOFError] when there is none.  The lines not yet read are passed
    along. *)
Definition input (prompt : str) (lines : list str) : M (str * list str) :=
  print prompt ;;;
  match lines with
  | [] => raise end_of_input
  | l :: rest => ret (l, rest)
  end.

(** [a or b] on strings. *)
Definition str_or (a b : str) : str :=
  match a with [] => b | _ :: _ => a end.

(** [int(s)] outside a [try]. *)
Definition int_or_raise (s : str) : M Z :=
  match py_int s with
  | Some n => ret n
  | None => raise not_a_number
  end.

(** [list(d.values())[i - 1]] and [list(d.keys())[i - 1]] for an index in
    range. *)
Definition nth_code (i : Z) : str := nth (Z.to_nat (i - 1)) (map snd languages) [].
Definition nth_name (i : Z) : str := nth (Z.to_nat (i - 1)) (map fst languages) [].

(** The lines of the catalog, [f"{i}. {name} ({code})"] from [i] on. *)
Fixpoint print_catalog (i : Z) (items : list (str * str)) : M unit :=
  match items with
  | [] => ret tt
  | (name, code) :: items' =>
      print (str_of_int i ++ lit ". " ++ name ++ lit " (" ++ code ++ lit ")") ;;;
      print_catalog (i + 1) items'
  end.

(** [while True:] of [show_language_menu].  Every round reads at least
    one line, so the rounds are counted down on the lines left. *)
Fixpoint language_rounds (lines : list str) : M (list str) :=
  print (10 :: lit "Select your language (number): ") ;;;
  match lines with
  | [] => raise end_of_input
  | a :: lines1 =>
      match py_int a with
      | None => print (lit "Please enter a number.") ;;; language_rounds lines1
      | Some src_choice =>
          print (lit "Select target language (number): ") ;;;
          match lines1 with
          | [] => raise end_of_input
          | b :: lines2 =>
              match py_int b with
              | None => print (lit "Please enter a number.") ;;; language_rounds lines2
              | Some tgt_choice =>
                  if (1 <=? src_choice) && (src_choice <=? len languages)
                     && (1 <=? tgt_choice) && (tgt_choice <=? len languages)
                  then
                    modify_self (set_source_lang (nth_code src_choice)) ;;;
                    modify_self (set_target_lang (nth_code tgt_choice)) ;;;
                    print (10 :: lit "Translation set: " ++ nth_name src_choice
                           ++ lit " -> " ++ nth_name tgt_choice) ;;;
                    ret lines2
                  else
                    print (lit "Invalid selection. Try again.") ;;;
                    language_rounds lines2
              end
          end
      end
  end.

(** [show_language_menu]: the lines the user typed go in, those not read
    come out. *)
Definition show_language_menu (lines : list str) : M (list str) :=
  print (10 :: lit "Available Languages:") ;;;
  print_catalog 1 languages ;;;
  language_rounds lines.

(** [while True:] of [setup_call]. *)
Fixpoint call_rounds (lines : list str) : M (list str) :=
  print (lit "Select option (1-3): ") ;;;
  match lines with
  | [] => raise end_of_input
  | choice :: lines1 =>
      if str_eqb choice (lit "1") then
        modify_self (set_is_host true) ;;;
        a <- input (lit "Enter port to host on (default 5000): ") lines1 ;;
        p <- int_or_raise (str_or (fst a) (lit "5000")) ;;
        modify_self (set_port p) ;;;
        modify_self (set_in_call true) ;;;
        ret (snd a)
      else if str_eqb choice (lit "2") then
        modify_self (set_is_host false) ;;;
        a <- input (lit "Enter host IP (default localhost): ") lines1 ;;
        modify_self (set_host (str_or (fst a) (lit "localhost"))) ;;;
        b <- input (lit "Enter port (default 5000): ") (snd a) ;;
        p <- int_or_raise (str_or (fst b) (lit "5000")) ;;
        modify_self (set_port p) ;;;
        modify_self (set_in_call true) ;;;
        ret (snd b)
      else if str_eqb choice (lit "3") then
        modify_self (set_in_call false) ;;;
        ret lines1
      else
        print (lit "Invalid choice") ;;;
        call_rounds lines1
  end.

(** [setup_call] *)
Definition setup_call (lines : list str) : M (list str) :=
  print (10 :: lit "Call Options:") ;;;
  print (lit "1. Start a new call (host)") ;;;
  print (lit "2. Join existing call") ;;;
  print (lit "3. Local demo (no call)") ;;;
  call_rounds lines.

(** [__init__]: the attributes are set to their first values; without a
    camera that opens, [RuntimeError] is raised before the audio set-up.
    The engines' constructors and the noise calibration are calls on the
    collaborators that leave no attribute behind. *)
Definition VideoCallTranslator_init (camera_opened : bool) : M unit :=
  modify_self (fun _ => init_self) ;;;
  if camera_opened then ret tt
  else raise (Exn OtherException (lit "Could not open video device")).

(** [start], menus included. *)
Definition start_from_menus (lines : list str) (schedule : list thread)
  : M loop_status :=
  lines1 <- show_language_menu lines ;;
  lines2 <- setup_call lines1 ;;
  start schedule.

(** The [if __name__ == "__main__":] block.  While [start] has not
    returned ([StillRunning]) neither the [except] nor the [finally]
    clause has run. *)
Definition main (camera_opened : bool) (lines : list str)
           (schedule : list thread) : M loop_status :=
  fun m =>
    match (print (lit "=== Real-Time Video Call Translator ===") ;;;
           VideoCallTranslator_init camera_opened ;;;
           start_from_menus lines schedule) m with
    | (Ok StillRunning, m') => (Ok StillRunning, m')
    | (Ok Exited, m') => (print (lit "Program ended") ;;; ret Exited) m'
    | (Raise e, m') =>
        (print (lit "Error: " ++ exn_msg e) ;;;
         print (lit "Program ended") ;;;
         ret Exited) m'
    end.

(** *** Relations and traces the theorems are stated with *)

(** One pass of the video loop: what it leaves alone and what it shows. *)
Definition video_frame_rel (m m' : machine) : Prop :=
  text_queue (me m') = text_queue (me m) /\
  translation_queue (me m') = translation_queue (me m) /\
  translating (me m') = translating (me m) /\
  exists evs, out m' = out m ++ evs /\
    forall img, In (E_imshow (lit "Video Translator") img) evs ->
      exists f, img = PyFrame (overlay (me m) f).

(** The chunks that [recv_payload] takes one after the other before
    [msg_size] bytes are there: each comes while bytes are still missing,
    and none is empty. *)
Fixpoint needed (msg_size received : Z) (chunks : list bytes) : Prop :=
  match chunks with
  | [] => True
  | c :: cs => received < msg_size /\ c <> [] /\ needed msg_size (received + len c) cs
  end.

(** A [recv] on the connection, of whatever size. *)
Definition is_recv_on (conn : handle) (e : event) : Prop :=
  exists n, e = E_recv conn n.

(** The releases [cleanup] makes, in program order. *)
Definition releases (s : self) : list event :=
  [E_cap_release; E_destroyAllWindows; E_pygame_quit]
  ++ match connection s with Some c => [E_close c] | None => [] end
  ++ match socket s with Some h => [E_close h] | None => [] end.

(** The calls made out of [calls], given the world's answers: up to and
    including the first one that raises. *)
Fixpoint attempted (calls : list event) (replies : list (result unit)) : list event :=
  match calls, replies with
  | [], _ => []
  | c :: cs, Raise _ :: _ => [c]
  | c :: cs, Ok _ :: rs => c :: attempted cs rs
  | c :: cs, [] => c :: cs
  end.

(** Whether some call out of [calls] raises. *)
Fixpoint first_raise (calls : list event) (replies : list (result unit)) : option exn :=
  match calls, replies with
  | [], _ => None
  | _ :: _, Raise e :: _ => Some e
  | _ :: cs, Ok _ :: rs => first_raise cs rs
  | _ :: _, [] => None
  end.

(** What a thread does in local-demo mode: the three attributes the
    transport looks at stay as they are, and no socket operation is made. *)
Definition local_step (m m' : machine) : Prop :=
  in_call (me m') = in_call (me m) /\
  socket (me m') = socket (me m) /\
  connection (me m') = connection (me m) /\
  exists evs, out m' = out m ++ evs /\ filter is_socket_op evs = [].

Definition local {A} (c : M A) : Prop := forall m, local_step m (snd (c m)).

(** The closes of the [finally] block of [network_thread], in program
    order. *)
Definition closes (s : self) : list event :=
  match connection s with Some c => [E_close c] | None => [] end
  ++ match socket s with Some h => [E_close h] | None => [] end.

(** The calls of the setup that can fail, on a new socket [h]: the host's
    [bind], [listen] and [accept], or the client's [connect]. *)
Definition setup_calls (s : self) (h : handle) : list event :=
  if is_host s
  then [E_bind h (host s, port s); E_sock_listen h; E_accept h (S h)]
  else [E_connect h (host s, port s)].

(** The socket operations of a setup on a new socket [h] in which the
    calls [made] out of [setup_calls] were made. *)
Definition setup_ops (s : self) (h : handle) (made : list event) : list event :=
  E_socket h :: (if is_host s then [E_setsockopt h] else []) ++ made.

(** [wire] is the message [item] as the send block frames it. *)
Definition framed (item : str * pyobj) (wire : bytes) : Prop :=
  exists tag payload header,
    ((fst item = lit "video" /\ tag = 0 /\ payload = pickle_dumps (snd item)) \/
     (fst item = lit "text" /\ tag = 1 /\ obj_encode_utf8 (snd item) = Ok payload)) /\
    struct_pack_BQ tag (len payload) = Ok header /\
    wire = header ++ payload.

(** The arguments of the [sendall] calls among the events, in order. *)
Fixpoint sent (evs : list event) : list bytes :=
  match evs with
  | [] => []
  | E_sendall _ data :: evs' => data :: sent evs'
  | _ :: evs' => sent evs'
  end.

(** A [recv] that asks for between 1 and 4096 bytes, or a printed line. *)
Definition bounded_recv_or_print (e : event) : Prop :=
  match e with
  | E_recv _ n => 1 <= n <= 4096
  | E_print _ => True
  | _ => False
  end.

(** The choice a finished language menu made: two numbers of the
    catalog, and nothing else changed. *)
Definition chosen (m m' : machine) : Prop :=
  exists i j,
    1 <= i <= len languages /\ 1 <= j <= len languages /\
    me m' = set_target_lang (nth_code j) (set_source_lang (nth_code i) (me m)).

(** A line that is none of the three options of [setup_call]. *)
Definition not_an_option (l : str) : Prop :=
  str_eqb l (lit "1") = false /\ str_eqb l (lit "2") = false
  /\ str_eqb l (lit "3") = false.

(** Every call [c] makes on the world satisfies [P]. *)
Definition emits {A} (P : event -> Prop) (c : M A) : Prop :=
  forall m, exists evs, out (snd (c m)) = out m ++ evs /\ Forall P evs.

End Translator.

(* ===================================================================== *)
(** ** Stand-ins for the collaborators, and concrete machines *)
(* ===================================================================== *)

(** The model runs once the collaborators are given.  Here an image is its
    pixel bytes, [putText] leaves a one-byte mark of the text's length, a
    recorded utterance is a number, and [pickle] is a one-byte type mark
    followed by the contents. *)
Module Demo.

Definition image := bytes.
Definition clip := nat.

Definition resize (f : image) (size : Z * Z) : image := f.

Definition putText (f : image) (text : str) (org : Z * Z) : image :=
  f ++ [byte_of_Z (len text)].

Definition dumps (o : @pyobj image) : bytes :=
  match o with
  | PyNone => [x4e]
  | PyStr t => x53 :: match utf8_encode_cps t with Some b => b | None => [] end
  | PyFrame f => x46 :: f
  end.

Definition loads (data : bytes) : result (@pyobj image) :=
  match data with
  | [x4e] => Ok PyNone
  | x53 :: b =>
      match utf8_decode_cps b with
      | Some t => Ok (PyStr t)
      | None => Raise (Exn OtherException (lit "bad string"))
      end
  | x46 :: f => Ok (PyFrame f)
  | _ => Raise (Exn OtherException (lit "invalid load key"))
  end.

(** A world that answers nothing: every call gets its default. *)
Definition silent : @world image clip :=
  mkWorld [] [] [] [] [] [] [] [] [] [] [] 0%nat (lit "('10.0.0.2', 40000)").

(** The machine after [__init__], with the given attributes. *)
Definition boot (s : @self image clip) (w : @world image clip) : machine :=
  mkMachine s w [].

(** A client in a call: socket 0 is connected, nothing is queued. *)
Definition in_call_client : @self image clip :=
  set_running true
    (mkSelf [] [] [] [] (lit "en") (lit "hi") false true true false
            (Some 0%nat) (Some 0%nat) (lit "localhost") 5000 PyNone).

(** A host in a call: socket 0 listens, socket 1 is the connection. *)
Definition in_call_host : @self image clip :=
  set_running true
    (mkSelf [] [] [] [] (lit "en") (lit "hi") false true true true
            (Some 0%nat) (Some 1%nat) (lit "0.0.0.0") 5000 PyNone).

Definition timed_out : exn := Exn socket_timeout (lit "timed out").
Definition reset_by_peer : exn := Exn ConnectionResetError (lit "reset by peer").
Definition device_busy : exn := Exn OtherException (lit "device busy").

(** The header of a video message of 5 bytes, and of a text of 1 byte. *)
Definition video_header_5 : bytes := [x00; x00; x00; x00; x00; x00; x00; x00; x05].
Definition text_header_1 : bytes := [x01; x00; x00; x00; x00; x00; x00; x00; x01].
Definition text_header_5 : bytes := [x01; x00; x00; x00; x00; x00; x00; x00; x05].

(** The peer announces 5 bytes, sends 2 and closes. *)
Definition truncated_stream : machine :=
  boot in_call_client
       (set_recv_replies [Ok video_header_5; Ok [x01; x02]; Ok []] silent).

(** The peer sends a text of one byte that is no UTF-8. *)
Definition bad_text_stream : machine :=
  boot in_call_client (set_recv_replies [Ok text_header_1; Ok [xff]] silent).

(** The peer sends the text "hello" in two chunks. *)
Definition hello_stream : machine :=
  boot in_call_client
       (set_recv_replies [Ok text_header_5; Ok [x68; x65]; Ok [x6c; x6c; x6f]]
                         silent).

(** A text is queued for sending and [sendall] times out. *)
Definition send_times_out : machine :=
  boot (set_network_queue [(lit "text", PyStr (lit "hi"))] in_call_client)
       (set_sendall_replies [Raise timed_out] silent).

(** A text is queued for sending and [sendall] succeeds. *)
Definition send_hello : machine :=
  boot (set_network_queue [(lit "text", PyStr (lit "hello"))] in_call_client)
       silent.

(** A host in a call at shutdown, whose camera fails to release. *)
Definition camera_fails : machine :=
  boot in_call_host (set_teardown_replies [Raise device_busy] silent).

(** Local demo: the camera gives one frame and the user presses [q]. *)
Definition local_demo : machine :=
  boot init_self (set_cam_replies [Some [x10; x20]] (set_key_replies [113] silent)).

Definition local_demo_schedule : list thread :=
  [T_network; T_audio; T_speech; T_translation; T_video; T_video].

(** Two frames come from the camera while "hello" waits on [text_queue]. *)
Definition two_frames : machine :=
  boot (set_text_queue [lit "hello"] (set_running true init_self))
       (set_cam_replies [Some [x10]; Some [x20]] silent).

(** A text is queued for sending and the peer has reset the connection. *)
Definition send_reset : machine :=
  boot (set_network_queue [(lit "text", PyStr (lit "hi")); (lit "text", PyStr (lit "yo"))]
                          in_call_client)
       (set_sendall_replies [Raise reset_by_peer] silent).

(** An utterance is queued during a call and is recognized as "hello". *)
Definition heard_hello : machine :=
  boot (set_audio_queue [7%nat] in_call_client)
       (set_asr_replies [Ok (lit "hello")] silent).

(** [int] on a line of decimal digits; anything else is refused. *)
Fixpoint digits_value (acc : Z) (s : str) : option Z :=
  match s with
  | [] => Some acc
  | c :: s' =>
      if (48 <=? c) && (c <=? 57) then digits_value (acc * 10 + (c - 48)) s'
      else None
  end.

Definition int (s : str) : option Z :=
  match s with
  | [] => None
  | _ :: _ => digits_value 0 s
  end.

(** A text is queued for translation while translation is switched off. *)
Definition muted : machine :=
  boot (mkSelf [] [lit "hello"] [] [] (lit "en") (lit "hi") true false false
               false None None (lit "0.0.0.0") 5000 PyNone)
       (set_mt_replies [Ok (lit "namaste")] silent).

(** An utterance is waiting to be picked up by the capture stage. *)
Definition mic_heard : machine :=
  boot in_call_client (set_listen_replies [Ok 7%nat] silent).

(** "hello" is translated, and the synthesis service is down. *)
Definition synthesis_down : machine :=
  boot (set_text_queue [lit "hello"] in_call_client)
       (set_mt_replies [Ok (lit "namaste")]
          (set_tts_replies [Raise device_busy] silent)).

(** During a call the camera gives a frame, a text waits on [text_queue],
    and the key code is that of [q] with a modifier bit above the low 8. *)
Definition filming : machine :=
  boot (set_text_queue [lit "hello"] in_call_client)
       (set_cam_replies [Some [x10; x20]] (set_key_replies [113 + 256] silent)).

(** The camera gives nothing while the user presses [q]. *)
Definition camera_dark : machine :=
  boot in_call_client (set_cam_replies [None] (set_key_replies [113] silent)).

(** Three bytes arrive where a header is expected. *)
Definition short_header_stream : machine :=
  boot in_call_client (set_recv_replies [Ok [x01; x00; x05]] silent).

(** A complete message of type 7. *)
Definition unknown_type_stream : machine :=
  boot in_call_client
       (set_recv_replies [Ok [x07; x00; x00; x00; x00; x00; x00; x00; x01]; Ok [x2a]]
                         silent).

(** The peer announces 5 bytes, sends 2, and falls silent. *)
Definition stalled_stream : machine :=
  boot in_call_client
       (set_recv_replies [Ok video_header_5; Ok [x01; x02]; Raise timed_out] silent).

(** A frame is queued for sending. *)
Definition a_frame : @pyobj image := PyFrame [x10; x20].

Definition send_frame : machine :=
  boot (set_network_queue [(lit "video", a_frame)] in_call_client) silent.

(** A connected client that has nothing queued and hears nothing. *)
Definition idle_client : machine := boot in_call_client silent.

(** A text and a frame are queued, in that order, with one more behind. *)
Definition two_queued : machine :=
  boot (set_network_queue
          [(lit "text", PyStr (lit "hi")); (lit "video", a_frame);
           (lit "text", PyStr (lit "yo"))] in_call_client)
       silent.

(** A host in a call after the quit key. *)
Definition host_after_quit : machine :=
  boot (set_running false in_call_host) silent.

(** A text is queued and [sendall] fails for good. *)
Definition send_fails : machine :=
  boot (set_network_queue [(lit "text", PyStr (lit "hi"))] in_call_host)
       (set_sendall_replies [Raise device_busy] silent).

(** [recv] fails for good. *)
Definition recv_fails : machine :=
  boot in_call_host (set_recv_replies [Raise device_busy] silent).

(** A host about to set the call up, and one whose port is taken. *)
Definition host_before_setup : machine :=
  boot (set_connection None (set_socket None in_call_host)) silent.

Definition port_taken : machine :=
  boot (set_connection None (set_socket None in_call_host))
       (set_setup_replies [Raise device_busy] silent).

(** What a user types: a word, language 2, language 1, option 9, option 3. *)
Definition typed : list str :=
  [lit "x"; lit "2"; lit "1"; lit "9"; lit "3"].

End Demo.

(* ===================================================================== *)
(** ** The wire format *)
(* ===================================================================== *)

Section WireFacts.

Lemma Z_of_byte_range (b : byte) : 0 <= Z_of_byte b < 256.
Proof.
  unfold Z_of_byte. pose proof (Byte.to_N_bounded b). lia.
Qed.

Lemma Z_of_byte_of_Z (z : Z) : Z_of_byte (byte_of_Z z) = z mod 256.
Proof.
  unfold Z_of_byte, byte_of_Z.
  pose proof (Z.mod_pos_bound z 256 ltac:(lia)) as Hb.
  destruct (Byte.of_N (Z.to_N (z mod 256))) as [b|] eqn:E.
  - apply Byte.to_of_N in E. rewrite E. lia.
  - apply Byte.of_N_None_iff in E. lia.
Qed.

Lemma length_to_be (k : nat) (n : Z) : List.length (to_be k n) = k.
Proof. induction k; simpl; congruence. Qed.

Lemma fold_to_be (k : nat) (n acc : Z) :
  fold_left (fun a b => a * 256 + Z_of_byte b) (to_be k n) acc
  = acc * 256 ^ Z.of_nat k + n mod 256 ^ Z.of_nat k.
Proof.
  revert acc. induction k as [|k IH]; intros acc.
  - simpl. rewrite Z.mod_1_r. lia.
  - cbn [to_be fold_left]. rewrite IH, Z_of_byte_of_Z.
    rewrite Nat2Z.inj_succ, Z.pow_succ_r by lia.
    rewrite (Z.mul_comm 256 (256 ^ Z.of_nat k)).
    rewrite (Z.rem_mul_r n (256 ^ Z.of_nat k) 256) by lia.
    ring.
Qed.

Lemma from_be_to_be (k : nat) (n : Z) :
  0 <= n < 256 ^ Z.of_nat k -> from_be (to_be k n) = n.
Proof.
  intros H. unfold from_be. rewrite fold_to_be, Z.mod_small by assumption. lia.
Qed.

Lemma unpack_pack (tag n : Z) :
  0 <= tag <= 255 -> 0 <= n < 2 ^ 64 ->
  exists header,
    struct_pack_BQ tag n = Ok header /\
    len header = 9 /\
    struct_unpack_BQ header = Ok (tag, n).
Proof.
  intros Ht Hn. unfold struct_pack_BQ.
  replace ((0 <=? tag) && (tag <=? 255) && (0 <=? n) && (n <? 2 ^ 64)) with true
    by (symmetry; rewrite !andb_true_iff; repeat split; lia).
  eexists; split; [reflexivity|].
  assert (L : len (byte_of_Z tag :: to_be 8 n) = 9).
  { unfold len. cbn [List.length]. rewrite length_to_be. reflexivity. }
  split; [exact L|].
  unfold struct_unpack_BQ. rewrite L. cbn [Z.eqb Pos.eqb].
  rewrite Z_of_byte_of_Z, Z.mod_small by lia.
  rewrite (from_be_to_be 8) by (change (256 ^ Z.of_nat 8) with (2 ^ 64); lia).
  reflexivity.
Qed.

(** C1.  For tag 0 or 1 and any payload, [struct.pack("!BQ", tag,
    len(payload))] gives a 9-byte header, and [struct.unpack("!BQ", ...)]
    of the first 9 bytes of [header + payload] gives back the tag and the
    payload's byte count, the empty payload included.  The bound on the
    length is the one every Python [bytes] object meets: its size is a
    [Py_ssize_t], below [2 ^ 63]. *)
Theorem header_roundtrip (tag : Z) (payload : bytes) :
  tag = 0 \/ tag = 1 ->
  len payload < 2 ^ 64 ->
  exists header,
    struct_pack_BQ tag (len payload) = Ok header /\
    len header = 9 /\
    struct_unpack_BQ (firstn 9 (header ++ payload)) = Ok (tag, len payload).
Proof.
  intros Ht Hl.
  destruct (unpack_pack tag (len payload)) as (header & Hp & H9 & Hu).
  - lia.
  - unfold len in *. lia.
  - exists header. repeat split; try assumption.
    assert (Hlen : List.length header = 9%nat) by (unfold len in H9; lia).
    change 9%nat with (9 + 0)%nat. rewrite <- Hlen at 1.
    rewrite firstn_app_2. cbn [firstn]. rewrite app_nil_r. exact Hu.
Qed.

End WireFacts.

(* ===================================================================== *)
(** ** The stages *)
(* ===================================================================== *)

(** Unfolds the monad and the calls on the world, then simplifies the
    records. *)
Ltac run :=
  cbv beta iota delta
    [bind ret raise lift try_except try_finally get_self modify_self emit
     reply print sleep recognizer_listen recognize_google translator_translate
     gtts_to_fp mixer_call cap_read cv2_waitKey socket_socket
     socket_setup_call socket_accept sendall recv teardown_call
     the_connection];
  cbn.

Section StageFacts.

Context {frame audio : Type}.
Context (cv2_resize : frame -> Z * Z -> frame).
Context (cv2_putText : frame -> str -> Z * Z -> frame).

Local Abbreviation machine := (@machine frame audio).
Local Abbreviation event := (@event frame audio).

(** C8.  With [self.translating] false, [translation_thread] takes the
    text off [text_queue] and does nothing else: the translation queue and
    every other attribute are as before, no answer of the translation,
    synthesis or playback engines is used up, and no call on the outside
    world is made. *)
Theorem translation_disabled_drops (m : machine) (text : str) (rest : list str) :
  text_queue (me m) = text :: rest ->
  translating (me m) = false ->
  translation_iteration m
  = (Ok tt, mkMachine (set_text_queue rest (me m)) (env m) (out m)).
Proof.
  intros Hq Ht.
  unfold translation_iteration. run. rewrite Hq. run. rewrite Ht. reflexivity.
Qed.

(** C7.  One pass of [speech_recognition_thread] over a queued utterance
    [a], by the answer [r] of the recognizer.  A recognized text is put on
    [text_queue], and on [network_queue] as [('text', text)] exactly when
    [self.in_call] holds.  An exception puts nothing on either queue, and
    [UnknownValueError] prints nothing either. *)
Theorem recognition_outcome (m : machine) (a : audio) (rest : list audio)
        (r : result str) (replies : list (result str)) :
  audio_queue (me m) = a :: rest ->
  asr_replies (env m) = r :: replies ->
  let m' := snd (speech_recognition_iteration m) in
  let heard := E_recognize a (source_lang (me m)) in
  match r with
  | Ok text =>
      text_queue (me m') = text_queue (me m) ++ [text] /\
      network_queue (me m')
      = (if in_call (me m)
         then network_queue (me m) ++ [(lit "text", PyStr text)]
         else network_queue (me m)) /\
      out m' = out m ++ [heard]
  | Raise e =>
      text_queue (me m') = text_queue (me m) /\
      network_queue (me m') = network_queue (me m) /\
      if isinstance e [UnknownValueError]
      then out m' = out m ++ [heard]
      else exists line, out m' = out m ++ [heard; E_print line]
  end.
Proof.
  intros Hq Hr.
  unfold speech_recognition_iteration. run. rewrite Hq. run. rewrite Hr.
  destruct r as [text|e]; cbn.
  - destruct (in_call (me m)); cbn; repeat split; reflexivity.
  - destruct (isinstance e [UnknownValueError]); cbn.
    + repeat split; reflexivity.
    + destruct (isinstance e [RequestError]); cbn;
        repeat split; try reflexivity; eexists; rewrite <- app_assoc; reflexivity.
Qed.

(** What the overlay shows when both queues have a last item. *)
Lemma overlay_last (s : @self frame audio) (q q' : list str) (t t' : str) (f : frame) :
  text_queue s = q ++ [t] ->
  translation_queue s = q' ++ [t'] ->
  translating s = true ->
  overlay cv2_putText s f
  = cv2_putText (cv2_putText f (lit "Original: " ++ t) (10, 30))
                (lit "Translated: " ++ t') (10, 70).
Proof.
  intros H1 H2 H3. unfold overlay, peek_last. rewrite H1, H2, H3, !last_last.
  destruct q, q'; reflexivity.
Qed.

Lemma overlay_ext (s s' : @self frame audio) (f : frame) :
  text_queue s' = text_queue s ->
  translation_queue s' = translation_queue s ->
  translating s' = translating s ->
  overlay cv2_putText s' f = overlay cv2_putText s f.
Proof. intros H1 H2 H3. unfold overlay. rewrite H1, H2, H3. reflexivity. Qed.

Lemma video_frame_rel_refl (m : machine) : video_frame_rel cv2_putText m m.
Proof.
  repeat split. exists []. rewrite app_nil_r. split; [reflexivity|].
  intros img [].
Qed.

Lemma video_frame_rel_trans (m1 m2 m3 : machine) :
  video_frame_rel cv2_putText m1 m2 -> video_frame_rel cv2_putText m2 m3 -> video_frame_rel cv2_putText m1 m3.
Proof.
  intros (A1 & A2 & A3 & e1 & A4 & A5) (B1 & B2 & B3 & e2 & B4 & B5).
  repeat split; try congruence.
  exists (e1 ++ e2). split.
  - rewrite B4, A4, app_assoc. reflexivity.
  - intros img Hin. apply in_app_or in Hin. destruct Hin as [Hin|Hin].
    + auto.
    + destruct (B5 img Hin) as [f Hf]. exists f. rewrite Hf.
      f_equal. apply overlay_ext; assumption.
Qed.

Lemma video_iteration_rel (m : machine) :
  video_frame_rel cv2_putText m (snd (video_capture_iteration cv2_resize cv2_putText m)).
Proof.
  unfold video_capture_iteration. run.
  destruct (cam_replies (env m)) as [|[f|] cams]; cbn.
  1, 3: repeat split; eexists; split;
    [rewrite <- !app_assoc; reflexivity | intros img Hin; cbn in Hin;
     repeat (destruct Hin as [Hin|Hin]; [discriminate Hin|]); destruct Hin].
  destruct (in_call (me m)); cbn;
    destruct (remote_frame (me m)); cbn;
    destruct (key_replies (env m)) as [|k ks]; cbn;
    try match goal with |- context [if ?c then _ else _] => destruct c end; cbn;
    repeat split;
    (eexists; split; [rewrite <- !app_assoc; cbn; reflexivity|]);
    intros img Hin; cbn in Hin;
    repeat (destruct Hin as [Hin|Hin];
            [first [ discriminate Hin
                   | injection Hin as <-; eexists; reflexivity
                   | exfalso; injection Hin; intros _ Hn;
                     vm_compute in Hn; discriminate Hn ] | ]);
    destruct Hin.
Qed.

(** C9.  Any number of passes of the video loop leave [text_queue] and
    [translation_queue] exactly as they were, every frame shown in the local
    window carries the overlay computed from those same queues, and that
    overlay is made of the last item of each queue ([q.queue[-1]]). *)
Theorem video_overlay_peeks (n : nat) (m : machine) :
  let m' := snd (video_passes cv2_resize cv2_putText n m) in
  text_queue (me m') = text_queue (me m) /\
  translation_queue (me m') = translation_queue (me m) /\
  (exists evs, out m' = out m ++ evs /\
     forall img, In (E_imshow (lit "Video Translator") img) evs ->
       exists f, img = PyFrame (overlay cv2_putText (me m) f)) /\
  (forall q q' t t' f,
     text_queue (me m) = q ++ [t] ->
     translation_queue (me m) = q' ++ [t'] ->
     translating (me m) = true ->
     overlay cv2_putText (me m) f
     = cv2_putText (cv2_putText f (lit "Original: " ++ t) (10, 30))
                   (lit "Translated: " ++ t') (10, 70)).
Proof.
  cbv zeta.
  assert (H : video_frame_rel cv2_putText m (snd (video_passes cv2_resize cv2_putText n m))).
  { revert m. induction n as [|n IH]; intros m.
    - apply video_frame_rel_refl.
    - cbn [video_passes]. unfold bind at 1, get_self at 1.
      destruct (running (me m)).
      + unfold bind.
        pose proof (video_iteration_rel m) as H1.
        destruct (video_capture_iteration cv2_resize cv2_putText m) as [[[]|e] m1];
          cbn [snd] in *.
        * eapply video_frame_rel_trans; [exact H1 | apply IH].
        * exact H1.
      + apply video_frame_rel_refl. }
  destruct H as (H1 & H2 & _ & H4).
  repeat split; try assumption.
  intros q q' t t' f. apply overlay_last.
Qed.

End StageFacts.

(* ===================================================================== *)
(** ** The transport *)
(* ===================================================================== *)

Section TransportFacts.

Context {frame audio : Type}.
Context (pickle_dumps : @pyobj frame -> bytes).
Context (pickle_loads : bytes -> result (@pyobj frame)).

Local Abbreviation machine := (@machine frame audio).
Local Abbreviation event := (@event frame audio).

Local Arguments send_block : simpl never.
Local Arguments send_attempt : simpl never.
Local Arguments receive_attempt : simpl never.
Local Arguments recv_payload : simpl never.
Local Arguments dispatch : simpl never.
Local Arguments network_iteration : simpl never.
Local Arguments network_leave : simpl never.
Local Arguments struct_unpack_BQ : simpl never.
Local Arguments struct_pack_BQ : simpl never.

Lemma len_app {A} (l1 l2 : list A) : len (l1 ++ l2) = len l1 + len l2.
Proof. unfold len. rewrite length_app. lia. Qed.

Lemma len_nonneg {A} (l : list A) : 0 <= len l.
Proof. unfold len. lia. Qed.

Lemma len_pos {A} (l : list A) : l <> [] -> 0 < len l.
Proof. destruct l; [congruence|]. unfold len. cbn [List.length]. lia. Qed.

Lemma str_eqb_eq (a b : str) : str_eqb a b = true -> a = b.
Proof.
  revert b. induction a as [|x a IH]; intros [|y b] H; cbn in H;
    try discriminate; [reflexivity|].
  apply andb_true_iff in H. destruct H as [H1 H2].
  apply Z.eqb_eq in H1. apply IH in H2. congruence.
Qed.

Lemma pack_Ok_unpack (tag n : Z) (header : bytes) :
  struct_pack_BQ tag n = Ok header ->
  len header = 9 /\ struct_unpack_BQ header = Ok (tag, n).
Proof.
  intros H.
  assert (R : (0 <= tag <= 255) /\ (0 <= n < 2 ^ 64)).
  { unfold struct_pack_BQ in H.
    destruct ((0 <=? tag) && (tag <=? 255) && (0 <=? n) && (n <? 2 ^ 64)) eqn:E;
      [|discriminate].
    rewrite !andb_true_iff in E. lia. }
  destruct R as [Rt Rn].
  destruct (unpack_pack tag n Rt Rn) as (h & Hp & H9 & Hu).
  rewrite Hp in H. injection H as <-. split; assumption.
Qed.

(** C2.  Whatever the state, the send block of one pass makes at most one
    socket call, a single [sendall] on the connection.  Its argument is
    the header followed by the payload and nothing else; the header is the
    9 bytes of [struct.pack("!BQ", tag, len(payload))], from which
    [struct.unpack] reads back the tag and the payload's exact byte count;
    the tag is 0 with the pickled object for ['video'], and 1 with the
    UTF-8 bytes of the string for ['text']. *)
Theorem send_attempt_framing (m : machine) :
  let m' := snd (send_attempt pickle_dumps m) in
  exists evs : list event,
    out m' = out m ++ evs /\
    (filter is_socket_op evs = [] \/
     exists conn data_type data rest tag payload header,
       network_queue (me m) = (data_type, data) :: rest /\
       connection (me m) = Some conn /\
       filter is_socket_op evs = [E_sendall conn (header ++ payload)] /\
       struct_pack_BQ tag (len payload) = Ok header /\
       len header = 9 /\
       struct_unpack_BQ header = Ok (tag, len payload) /\
       ((data_type = lit "video" /\ tag = 0 /\ payload = pickle_dumps data) \/
        (data_type = lit "text" /\ tag = 1 /\ obj_encode_utf8 data = Ok payload))).
Proof.
  cbv zeta. unfold send_attempt, send_block. run.
  destruct (network_queue (me m)) as [|[data_type data] rest] eqn:Hq; run.
  { exists []. rewrite app_nil_r. split; [reflexivity | left; reflexivity]. }
  destruct (str_eqb data_type (lit "video")) eqn:Hv; run.
  - apply str_eqb_eq in Hv.
    destruct (struct_pack_BQ 0 (len (pickle_dumps data))) as [header|e] eqn:Hp; run.
    + destruct (pack_Ok_unpack _ _ _ Hp) as [H9 Hu].
      destruct (connection (me m)) as [conn|] eqn:Hc; run.
      * assert (R : exists conn' data_type' data' rest' tag payload header',
          (data_type, data) :: rest = (data_type', data') :: rest' /\
          Some conn = Some conn' /\
          [E_sendall conn (header ++ pickle_dumps data)]
          = [@E_sendall frame audio conn' (header' ++ payload)] /\
          struct_pack_BQ tag (len payload) = Ok header' /\
          len header' = 9 /\
          struct_unpack_BQ header' = Ok (tag, len payload) /\
          ((data_type' = lit "video" /\ tag = 0 /\ payload = pickle_dumps data') \/
           (data_type' = lit "text" /\ tag = 1 /\ obj_encode_utf8 data' = Ok payload))).
        { exists conn, data_type, data, rest, 0, (pickle_dumps data), header.
          repeat split; try assumption. left. repeat split; assumption. }
        destruct (sendall_replies (env m)) as [|[[]|e] sr]; run;
          try destruct (isinstance e _); run;
          (eexists; split; [rewrite <- ?app_assoc; reflexivity | right; exact R]).
      * eexists; split; [reflexivity | left; reflexivity].
    + destruct (isinstance e _); run.
      * exists []. rewrite app_nil_r. split; [reflexivity | left; reflexivity].
      * eexists; split; [reflexivity | left; reflexivity].
  - destruct (str_eqb data_type (lit "text")) eqn:Ht; run.
    2: { exists []. rewrite app_nil_r. split; [reflexivity | left; reflexivity]. }
    apply str_eqb_eq in Ht.
    destruct (obj_encode_utf8 data) as [payload|e] eqn:He; run.
    2: { destruct (isinstance e _); run.
         - exists []. rewrite app_nil_r. split; [reflexivity | left; reflexivity].
         - eexists; split; [reflexivity | left; reflexivity]. }
    destruct (struct_pack_BQ 1 (len payload)) as [header|e] eqn:Hp; run.
    2: { destruct (isinstance e _); run.
         - exists []. rewrite app_nil_r. split; [reflexivity | left; reflexivity].
         - eexists; split; [reflexivity | left; reflexivity]. }
    destruct (pack_Ok_unpack _ _ _ Hp) as [H9 Hu].
    destruct (connection (me m)) as [conn|] eqn:Hc; run.
    2: { eexists; split; [reflexivity | left; reflexivity]. }
    assert (R : exists conn' data_type' data' rest' tag payload' header',
      (data_type, data) :: rest = (data_type', data') :: rest' /\
      Some conn = Some conn' /\
      [E_sendall conn (header ++ payload)]
      = [@E_sendall frame audio conn' (header' ++ payload')] /\
      struct_pack_BQ tag (len payload') = Ok header' /\
      len header' = 9 /\
      struct_unpack_BQ header' = Ok (tag, len payload') /\
      ((data_type' = lit "video" /\ tag = 0 /\ payload' = pickle_dumps data') \/
       (data_type' = lit "text" /\ tag = 1 /\ obj_encode_utf8 data' = Ok payload'))).
    { exists conn, data_type, data, rest, 1, payload, header.
      repeat split; try assumption. right. repeat split; assumption. }
    destruct (sendall_replies (env m)) as [|[[]|e] sr]; run;
      try destruct (isinstance e _); run;
      (eexists; split; [rewrite <- ?app_assoc; reflexivity | right; exact R]).
Qed.

(** The other direction: a queued ['video'] or ['text'] message whose
    payload fits the length field does reach [sendall], framed. *)
Lemma send_attempt_sends (m : machine) (conn : handle) (data_type : str)
      (data : pyobj) (rest : list (str * pyobj)) (tag : Z) (payload : bytes) :
  network_queue (me m) = (data_type, data) :: rest ->
  connection (me m) = Some conn ->
  (data_type = lit "video" /\ tag = 0 /\ payload = pickle_dumps data) \/
  (data_type = lit "text" /\ tag = 1 /\ obj_encode_utf8 data = Ok payload) ->
  len payload < 2 ^ 64 ->
  exists header tail,
    struct_pack_BQ tag (len payload) = Ok header /\
    out (snd (send_attempt pickle_dumps m))
    = out m ++ E_sendall conn (header ++ payload) :: tail /\
    filter is_socket_op tail = [].
Proof.
  intros Hq Hc Hk Hl.
  assert (Ht : 0 <= tag <= 255) by (destruct Hk as [(_ & -> & _)|(_ & -> & _)]; lia).
  destruct (unpack_pack tag (len payload) Ht) as (header & Hp & _).
  { pose proof (len_nonneg payload). lia. }
  exists header.
  unfold send_attempt, send_block. run. rewrite Hq. run.
  destruct Hk as [(-> & -> & ->)|(-> & -> & He)].
  - change (str_eqb (lit "video") (lit "video")) with true. run.
    rewrite Hp. run. rewrite Hc. run.
    destruct (sendall_replies (env m)) as [|[[]|e] sr]; run;
      try destruct (isinstance e _); run;
      eexists; (split; [reflexivity|]);
      (split; [rewrite <- ?app_assoc; reflexivity | reflexivity]).
  - change (str_eqb (lit "text") (lit "video")) with false.
    change (str_eqb (lit "text") (lit "text")) with true. run.
    rewrite He. run. rewrite Hp. run. rewrite Hc. run.
    destruct (sendall_replies (env m)) as [|[[]|e] sr]; run;
      try destruct (isinstance e _); run;
      eexists; (split; [reflexivity|]);
      (split; [rewrite <- ?app_assoc; reflexivity | reflexivity]).
Qed.

Lemma pack_Raise_cls (tag n : Z) (e : exn) :
  struct_pack_BQ tag n = Raise e -> exn_cls e = struct_error.
Proof.
  unfold struct_pack_BQ. destruct (_ && _); [discriminate|].
  intros H. injection H as <-. reflexivity.
Qed.

Lemma encode_Raise_cls (o : @pyobj frame) (e : exn) :
  obj_encode_utf8 o = Raise e ->
  exn_cls e = UnicodeEncodeError \/ exn_cls e = AttributeError.
Proof.
  destruct o as [|t|f]; cbn; unfold str_encode_utf8;
    try destruct (utf8_encode_cps t); intros H; try discriminate;
    injection H as <-; auto.
Qed.

Lemma not_transient (e : exn) :
  exn_cls e = struct_error \/ exn_cls e = UnicodeEncodeError
  \/ exn_cls e = AttributeError ->
  isinstance e [ConnectionResetError; BrokenPipeError; socket_timeout] = false.
Proof. unfold isinstance. intros [H|[H|H]]; rewrite H; reflexivity. Qed.

(** An exception of one of the three transient classes leaves the send
    block only from [sendall]: the message is off the queue, and [sendall]
    was called once. *)
Lemma send_block_transient (m m1 : machine) (item : str * pyobj)
      (rest : list (str * pyobj)) (conn : handle) (e : exn) :
  network_queue (me m) = item :: rest ->
  connection (me m) = Some conn ->
  send_block pickle_dumps m = (Raise e, m1) ->
  isinstance e [ConnectionResetError; BrokenPipeError; socket_timeout] = true ->
  exists data sr,
    sendall_replies (env m) = Raise e :: sr /\
    m1 = mkMachine (set_network_queue rest (me m))
                   (set_sendall_replies sr (env m))
                   (out m ++ [E_sendall conn data]).
Proof.
  intros Hq Hc Hb Hi. unfold send_block in Hb. revert Hb. run.
  rewrite Hq. destruct item as [data_type data]. run.
  destruct (str_eqb data_type (lit "video")); run.
  - destruct (struct_pack_BQ 0 (len (pickle_dumps data))) as [header|e'] eqn:Hp; run.
    + rewrite Hc. run.
      destruct (sendall_replies (env m)) as [|[[]|e'] sr]; run; intros Hb;
        try discriminate.
      injection Hb as <- <-. eauto.
    + intros Hb. injection Hb as <- <-.
      apply pack_Raise_cls in Hp. rewrite not_transient in Hi by auto.
      discriminate.
  - destruct (str_eqb data_type (lit "text")); run; [|discriminate].
    destruct (obj_encode_utf8 data) as [payload|e'] eqn:He; run.
    2: { intros Hb. injection Hb as <- <-.
         apply encode_Raise_cls in He.
         rewrite not_transient in Hi by tauto. discriminate. }
    destruct (struct_pack_BQ 1 (len payload)) as [header|e'] eqn:Hp; run.
    2: { intros Hb. injection Hb as <- <-.
         apply pack_Raise_cls in Hp. rewrite not_transient in Hi by auto.
         discriminate. }
    rewrite Hc. run.
    destruct (sendall_replies (env m)) as [|[[]|e'] sr]; run; intros Hb;
      try discriminate.
    injection Hb as <- <-. eauto.
Qed.

(** C4.  When the send block of a pass raises [ConnectionResetError],
    [BrokenPipeError] or [socket.timeout], the pass ends there and the
    thread is back at the loop test.  The message that was taken off the
    queue is gone: the queue holds what was behind it, no other attribute
    changed, and the only call made in the pass is the one [sendall] that
    raised (no second [sendall], and no [recv]). *)
Theorem transient_send_error_drops (m m1 : machine) (item : str * pyobj)
        (rest : list (str * pyobj)) (conn : handle) (e : exn) :
  running (me m) = true ->
  connection (me m) = Some conn ->
  network_queue (me m) = item :: rest ->
  send_block pickle_dumps m = (Raise e, m1) ->
  isinstance e [ConnectionResetError; BrokenPipeError; socket_timeout] = true ->
  network_thread_step pickle_dumps pickle_loads NetLoop m = (Ok NetLoop, m1) /\
  me m1 = set_network_queue rest (me m) /\
  recv_replies (env m1) = recv_replies (env m) /\
  exists data, out m1 = out m ++ [E_sendall conn data].
Proof.
  intros Hr Hc Hq Hb Hi.
  destruct (send_block_transient m m1 item rest conn e Hq Hc Hb Hi)
    as (data & sr & Hs & ->).
  split.
  - unfold network_thread_step. run. rewrite Hr, Hc.
    unfold network_iteration, send_attempt. run. rewrite Hb, Hi. reflexivity.
  - cbn. repeat split. eauto.
Qed.

(** *** The payload loop *)

Lemma needed_short (msg_size : Z) (chunks : list bytes) (received : Z) :
  Forall (fun c => c <> []) chunks ->
  received + len (List.concat chunks) < msg_size ->
  needed msg_size received chunks.
Proof.
  intros F. revert received. induction F as [|c cs Hc F IH]; intros received H.
  - exact I.
  - cbn [List.concat] in H. rewrite len_app in H.
    pose proof (len_nonneg c). pose proof (len_nonneg (List.concat cs)).
    cbn [needed]. repeat split; [lia | assumption | apply IH; lia].
Qed.

Lemma needed_exact (msg_size : Z) (chunks : list bytes) (received : Z) :
  Forall (fun c => c <> []) chunks ->
  received + len (List.concat chunks) = msg_size ->
  needed msg_size received chunks.
Proof.
  intros F. revert received. induction F as [|c cs Hc F IH]; intros received H.
  - exact I.
  - cbn [List.concat] in H. rewrite len_app in H.
    pose proof (len_pos c Hc). pose proof (len_nonneg (List.concat cs)).
    cbn [needed]. repeat split; [lia | assumption | apply IH; lia].
Qed.

Lemma recv_payload_S (fuel : nat) (msg_size received : Z) (acc : list bytes) :
  recv_payload (frame:=frame) (audio:=audio) (S fuel) msg_size received acc
  = if received <? msg_size then
      bind the_connection (fun conn =>
      bind (recv conn (Z.min (msg_size - received) 4096)) (fun chunk =>
        match chunk with
        | [] => ret (received, acc)
        | _ :: _ =>
            recv_payload fuel msg_size (received + len chunk) (acc ++ [chunk])
        end))
    else ret (received, acc).
Proof. reflexivity. Qed.

(** The loop takes the needed chunks one [recv] each, and is then where it
    would be had it started behind them. *)
Lemma recv_payload_chunks (conn : handle) (msg_size : Z) (rest : list (result bytes))
      (chunks : list bytes) :
  forall (fuel : nat) (m : machine) (received : Z) (acc : list bytes),
    connection (me m) = Some conn ->
    recv_replies (env m) = map Ok chunks ++ rest ->
    needed msg_size received chunks ->
    exists evs : list event,
      Forall (is_recv_on conn) evs /\
      recv_payload (List.length chunks + fuel) msg_size received acc m
      = recv_payload fuel msg_size (received + len (List.concat chunks))
                     (acc ++ chunks)
                     (mkMachine (me m) (set_recv_replies rest (env m))
                                (out m ++ evs)).
Proof.
  induction chunks as [|c cs IH]; intros fuel m received acc Hc Hr Hn.
  - exists []. split; [constructor|].
    cbn [List.length List.concat Nat.add]. cbn in Hr.
    rewrite !app_nil_r, Z.add_0_r. rewrite <- Hr.
    destruct m as [s w o]. destruct w. reflexivity.
  - destruct Hn as (Hlt & Hne & Hn).
    cbn [List.length Nat.add]. rewrite recv_payload_S.
    apply Z.ltb_lt in Hlt. rewrite Hlt. run. rewrite Hc. run.
    cbn [map app] in Hr. rewrite Hr.
    destruct c as [|b c']; [congruence|].
    set (m1 := mkMachine (me m) (set_recv_replies (map Ok cs ++ rest) (env m))
                         (out m ++ [E_recv conn (Z.min (msg_size - received) 4096)])).
    destruct (IH fuel m1 (received + len (b :: c')) (acc ++ [b :: c']))
      as (evs & Fe & He); [exact Hc | reflexivity | exact Hn |].
    exists (E_recv conn (Z.min (msg_size - received) 4096) :: evs).
    split; [constructor; [eexists; reflexivity | exact Fe]|].
    etransitivity; [exact He|]. subst m1. cbn [me env out List.concat].
    rewrite len_app, <- !app_assoc, Z.add_assoc. reflexivity.
Qed.

(** [receive_attempt] gives the loop one more pass than there are answers
    left, and that bound is never reached: each pass takes an answer, and
    with none left [recv] times out. *)
Lemma recv_payload_fuel (msg_size : Z) :
  forall (fuel : nat) (m : machine) (received : Z) (acc : list bytes),
    (List.length (recv_replies (env m)) < fuel)%nat ->
    recv_payload fuel msg_size received acc m
    = recv_payload (S (List.length (recv_replies (env m)))) msg_size received acc m.
Proof.
  intros fuel m. remember (recv_replies (env m)) as script eqn:Hs.
  revert fuel m Hs.
  induction script as [|r script IH]; intros fuel m Hs received acc Hf.
  - destruct fuel as [|fuel]; [cbn in Hf; lia|].
    cbn [List.length]. rewrite !recv_payload_S.
    destruct (received <? msg_size); [|reflexivity].
    run. destruct (connection (me m)); run; [|reflexivity].
    rewrite <- Hs. reflexivity.
  - destruct fuel as [|fuel]; [cbn in Hf; lia|].
    cbn [List.length] in *. rewrite !recv_payload_S.
    destruct (received <? msg_size); [|reflexivity].
    run. destruct (connection (me m)); run; [|reflexivity].
    rewrite <- Hs.
    destruct r as [[|b c]|e]; run; try reflexivity.
    apply IH; [reflexivity | lia].
Qed.

Lemma unpack_Ok_nonempty (header : bytes) (tag L : Z) :
  struct_unpack_BQ header = Ok (tag, L) -> exists b bs, header = b :: bs.
Proof. destruct header; [discriminate | eauto]. Qed.

(** C3.  A pass whose send block fell through reads a header that
    announces [L] bytes, then chunks that add up to fewer than [L], then
    [b''] (end of stream).  The receive block ends in [continue]: the
    thread is back at the loop test, no attribute of [self] changed
    ([remote_frame] in particular), and nothing was done but [recv] calls:
    the chunks read were neither unpickled nor decoded nor logged. *)
Theorem truncated_message_discarded (m0 m : machine) (conn : handle)
        (header : bytes) (tag L : Z) (chunks : list bytes)
        (rest : list (result bytes)) :
  running (me m0) = true ->
  connection (me m0) = Some conn ->
  send_attempt pickle_dumps m0 = (Ok Fallthrough, m) ->
  connection (me m) = Some conn ->
  recv_replies (env m) = Ok header :: map Ok chunks ++ Ok [] :: rest ->
  struct_unpack_BQ header = Ok (tag, L) ->
  Forall (fun c => c <> []) chunks ->
  len (List.concat chunks) < L ->
  exists evs : list event,
    Forall (is_recv_on conn) evs /\
    let m' := mkMachine (me m) (set_recv_replies rest (env m)) (out m ++ evs) in
    receive_attempt pickle_loads m = (Ok Continue, m') /\
    network_thread_step pickle_dumps pickle_loads NetLoop m0 = (Ok NetLoop, m').
Proof.
  intros Hrun Hc0 Hs Hc Hr Hu Hne Hlt.
  destruct (unpack_Ok_nonempty _ _ _ Hu) as (b & bs & ->).
  set (m1 := mkMachine (me m)
                       (set_recv_replies (map Ok chunks ++ Ok [] :: rest) (env m))
                       (out m ++ [E_recv conn 9])).
  destruct (recv_payload_chunks conn L (Ok [] :: rest) chunks
              (S (S (List.length rest))) m1 0 [])
    as (evs & Fe & He);
    [exact Hc | reflexivity | apply needed_short; [assumption | lia] |].
  exists (E_recv conn 9 :: evs ++ [E_recv conn (Z.min (L - (0 + len (List.concat chunks))) 4096)]).
  split.
  { constructor; [eexists; reflexivity|].
    apply Forall_app. split; [exact Fe|].
    constructor; [eexists; reflexivity | constructor]. }
  cbv zeta.
  assert (Hrecv : receive_attempt pickle_loads m
    = (Ok Continue,
       mkMachine (me m) (set_recv_replies rest (env m))
         (out m ++ E_recv conn 9 :: evs
          ++ [E_recv conn (Z.min (L - (0 + len (List.concat chunks))) 4096)]))).
  { unfold receive_attempt. run. rewrite Hc. run. rewrite Hr. run.
    rewrite Hu. unfold recv_fuel. run. fold m1.
    rewrite (recv_payload_fuel L (S (List.length (map Ok chunks ++ Ok [] :: rest)))
               m1 0 []) by (cbn; lia).
    change (recv_replies (env m1)) with (map Ok chunks ++ Ok [] :: rest).
    replace (S (List.length (map Ok chunks ++ Ok [] :: rest)))
      with (List.length chunks + S (S (List.length rest)))%nat
      by (rewrite length_app, length_map; cbn; lia).
    rewrite Z.add_0_l in He. rewrite He, recv_payload_S.
    apply Z.ltb_lt in Hlt.
    rewrite Hlt. run. rewrite Hc. run. rewrite Hlt.
    subst m1. cbn. rewrite <- !app_assoc. reflexivity. }
  split; [exact Hrecv|].
  unfold network_thread_step. run. rewrite Hrun, Hc0.
  unfold network_iteration. run. rewrite Hs, Hrecv. reflexivity.
Qed.

(** C10.  A pass whose send block fell through reads a header that
    announces [L] bytes and then chunks that add up to [L].  When the
    message is a video frame (tag 0) that [pickle.loads] rejects, or a text
    (tag 1) that is not UTF-8, the receive block prints one line and falls
    off its end: the thread is back at the loop test and no attribute of
    [self] changed ([remote_frame] in particular). *)
Theorem undecodable_payload_discarded (m0 m : machine) (conn : handle)
        (header : bytes) (tag L : Z) (chunks : list bytes)
        (rest : list (result bytes)) (e : exn) :
  running (me m0) = true ->
  connection (me m0) = Some conn ->
  send_attempt pickle_dumps m0 = (Ok Fallthrough, m) ->
  connection (me m) = Some conn ->
  recv_replies (env m) = Ok header :: map Ok chunks ++ rest ->
  struct_unpack_BQ header = Ok (tag, L) ->
  Forall (fun c => c <> []) chunks ->
  len (List.concat chunks) = L ->
  (tag = 0 /\ pickle_loads (List.concat chunks) = Raise e) \/
  (tag = 1 /\ bytes_decode_utf8 (List.concat chunks) = Raise e) ->
  exists evs : list event,
    Forall (is_recv_on conn) evs /\
    let line := (if tag =? 0 then lit "Frame unpickling error: "
                 else lit "Text decode error: ") ++ exn_msg e in
    let m' := mkMachine (me m) (set_recv_replies rest (env m))
                        (out m ++ evs ++ [E_print line]) in
    receive_attempt pickle_loads m = (Ok Fallthrough, m') /\
    network_thread_step pickle_dumps pickle_loads NetLoop m0 = (Ok NetLoop, m').
Proof.
  intros Hrun Hc0 Hs Hc Hr Hu Hne Hlen Hbad.
  destruct (unpack_Ok_nonempty _ _ _ Hu) as (b & bs & ->).
  set (m1 := mkMachine (me m)
                       (set_recv_replies (map Ok chunks ++ rest) (env m))
                       (out m ++ [E_recv conn 9])).
  destruct (recv_payload_chunks conn L rest chunks
              (S (List.length rest)) m1 0 [])
    as (evs & Fe & He);
    [exact Hc | reflexivity | apply needed_exact; [assumption | lia] |].
  exists (E_recv conn 9 :: evs).
  split; [constructor; [eexists; reflexivity | exact Fe]|].
  cbv zeta.
  assert (Hrecv : receive_attempt pickle_loads m
    = (Ok Fallthrough,
       mkMachine (me m) (set_recv_replies rest (env m))
         (out m ++ (E_recv conn 9 :: evs)
          ++ [E_print ((if tag =? 0 then lit "Frame unpickling error: "
                        else lit "Text decode error: ") ++ exn_msg e)]))).
  { unfold receive_attempt. run. rewrite Hc. run. rewrite Hr. run.
    rewrite Hu. unfold recv_fuel. run. fold m1.
    rewrite (recv_payload_fuel L (S (List.length (map Ok chunks ++ rest)))
               m1 0 []) by (cbn; lia).
    change (recv_replies (env m1)) with (map Ok chunks ++ rest).
    replace (S (List.length (map Ok chunks ++ rest)))
      with (List.length chunks + S (List.length rest))%nat
      by (rewrite length_app, length_map; cbn; lia).
    rewrite Z.add_0_l in He. rewrite He, recv_payload_S.
    rewrite Hlen, Z.ltb_irrefl. run. rewrite Z.ltb_irrefl.
    unfold dispatch. subst m1.
    destruct Hbad as [[-> Hl]|[-> Hd]]; run.
    - rewrite Hl. run. rewrite <- !app_assoc. reflexivity.
    - rewrite Hd. run. rewrite <- !app_assoc. reflexivity. }
  split; [exact Hrecv|].
  unfold network_thread_step. run. rewrite Hrun, Hc0.
  unfold network_iteration. run. rewrite Hs, Hrecv. reflexivity.
Qed.

End TransportFacts.

(* ===================================================================== *)
(** ** The orchestrator *)
(* ===================================================================== *)

Section OrchestratorFacts.

Context {frame audio : Type}.
Context (cv2_resize : frame -> Z * Z -> frame).
Context (cv2_putText : frame -> str -> Z * Z -> frame).
Context (pickle_dumps : @pyobj frame -> bytes).
Context (pickle_loads : bytes -> result (@pyobj frame)).

Local Abbreviation machine := (@machine frame audio).
Local Abbreviation event := (@event frame audio).
Local Abbreviation M := (@M frame audio).

(** *** [cleanup] *)

(** C5, as the code has it.  The cleanup of [start] sets [running] to
    false and then releases the camera, the windows, the audio device, the
    connection and the socket, in that order, as consecutive statements.
    When no release raises, all of them are made and the closing line is
    printed.  When one raises, the exception leaves [cleanup] and the calls
    made are those up to and including it: the later releases are not
    made. *)
Theorem cleanup_releases_in_order (m : machine) :
  let calls := releases (me m) in
  let replies := teardown_replies (env m) in
  running (me (snd (cleanup m))) = false /\
  match first_raise calls replies with
  | None =>
      fst (cleanup m) = Ok tt /\
      out (snd (cleanup m))
      = out m ++ calls ++ [E_print (lit "Program shutdown complete")]
  | Some e =>
      fst (cleanup m) = Raise e /\
      out (snd (cleanup m)) = out m ++ attempted calls replies
  end.
Proof.
  cbv zeta. destruct m as [s w o]. destruct s, w. unfold cleanup, releases.
  destruct teardown_replies0
    as [|[[]|e1] [|[[]|e2] [|[[]|e3] [|[[]|e4] [|[[]|e5] l]]]]];
    destruct connection0, socket0; run;
    rewrite <- ?app_assoc; repeat split; reflexivity.
Qed.

(** *** Local-demo mode *)

Lemma local_step_refl (m : machine) : local_step m m.
Proof.
  repeat split. exists []. rewrite app_nil_r. split; reflexivity.
Qed.

Lemma local_step_trans (m1 m2 m3 : machine) :
  local_step m1 m2 -> local_step m2 m3 -> local_step m1 m3.
Proof.
  intros (A1 & A2 & A3 & e1 & A4 & A5) (B1 & B2 & B3 & e2 & B4 & B5).
  repeat split; try congruence.
  exists (e1 ++ e2). split.
  - rewrite B4, A4, app_assoc. reflexivity.
  - rewrite filter_app, A5, B5. reflexivity.
Qed.

Lemma local_ret {A} (a : A) : local (frame:=frame) (audio:=audio) (ret a).
Proof. intros m. apply local_step_refl. Qed.

Lemma local_lift {A} (r : result A) : local (frame:=frame) (audio:=audio) (lift r).
Proof. intros m. apply local_step_refl. Qed.

Lemma local_get_self : local (frame:=frame) (audio:=audio) get_self.
Proof. intros m. apply local_step_refl. Qed.

Lemma local_bind {A B} (c : M A) (k : A -> M B) :
  local c -> (forall a, local (k a)) -> local (bind c k).
Proof.
  intros Hc Hk m. unfold bind. specialize (Hc m).
  destruct (c m) as [[a|e] m1]; cbn [snd] in *.
  - eapply local_step_trans; [exact Hc | apply Hk].
  - exact Hc.
Qed.

Lemma local_try_except {A} (body : M A) (handler : exn -> option (M A)) :
  local body -> (forall e h, handler e = Some h -> local h) ->
  local (try_except body handler).
Proof.
  intros Hb Hh m. unfold try_except. specialize (Hb m).
  destruct (body m) as [[a|e] m1]; cbn [snd] in *; [exact Hb|].
  destruct (handler e) as [h|] eqn:E; [|exact Hb].
  eapply local_step_trans; [exact Hb | apply (Hh e h E)].
Qed.

Lemma local_modify_self (f : @self frame audio -> @self frame audio) :
  (forall s, in_call (f s) = in_call s /\ socket (f s) = socket s
             /\ connection (f s) = connection s) ->
  local (modify_self f).
Proof.
  intros Hf m. destruct (Hf (me m)) as (H1 & H2 & H3).
  repeat split; cbn; try assumption.
  exists []. rewrite app_nil_r. split; reflexivity.
Qed.

Lemma local_emit (e : event) : is_socket_op e = false -> local (emit e).
Proof.
  intros He m. repeat split. exists [e]. cbn. rewrite He. split; reflexivity.
Qed.

Lemma local_reply {R} (get : @world frame audio -> list R)
      (set : list R -> @world frame audio -> @world frame audio) (default : R) :
  local (reply get set default).
Proof.
  intros m. unfold reply.
  destruct (get (env m)); cbn; repeat split;
    exists []; rewrite app_nil_r; split; reflexivity.
Qed.

(** Breaks a method down to the calls it is made of. *)
Ltac local_calls :=
  repeat (intros; cbv zeta;
    lazymatch goal with
    | |- local (bind _ _) => apply local_bind
    | |- local (try_except _ _) => apply local_try_except
    | |- local (ret _) => apply local_ret
    | |- local (lift _) => apply local_lift
    | |- local get_self => apply local_get_self
    | |- local (modify_self _) =>
        apply local_modify_self; intros; repeat split; reflexivity
    | |- local (emit _) => apply local_emit; reflexivity
    | |- local (reply _ _ _) => apply local_reply
    | |- local (match ?x with _ => _ end) => destruct x
    | H : (if ?c then _ else _) = Some _ |- _ => destruct c
    | H : Some _ = Some _ |- _ => injection H as <-
    | |- local _ =>
        progress unfold print, sleep, recognizer_listen, recognize_google,
          translator_translate, gtts_to_fp, mixer_call, cap_read, cv2_waitKey
    end).

Lemma local_audio_capture : local (frame:=frame) (audio:=audio) audio_capture_iteration.
Proof. unfold audio_capture_iteration. local_calls. Qed.

Lemma local_speech_recognition :
  local (frame:=frame) (audio:=audio) speech_recognition_iteration.
Proof. unfold speech_recognition_iteration. local_calls. Qed.

Lemma local_translation : local (frame:=frame) (audio:=audio) translation_iteration.
Proof. unfold translation_iteration. local_calls. Qed.

Lemma local_video_capture :
  local (audio:=audio) (video_capture_iteration cv2_resize cv2_putText).
Proof. unfold video_capture_iteration. local_calls. Qed.

Lemma local_while_running (body : M unit) : local body -> local (while_running body).
Proof. intros Hb. unfold while_running. local_calls. exact Hb. Qed.

(** Out of a call the network thread is over at its first step. *)
Lemma network_step_out_of_call (pc : net_pc) (m : machine) :
  in_call (me m) = false -> pc <> NetLoop ->
  network_thread_step pickle_dumps pickle_loads pc m = (Ok NetDone, m).
Proof.
  intros Hi Hpc. destruct pc; [| congruence |]; cbn.
  - unfold bind, get_self. rewrite Hi. reflexivity.
  - reflexivity.
Qed.

Lemma local_run_threads (schedule : list thread) :
  forall (pc : net_pc) (m : machine),
    in_call (me m) = false -> pc <> NetLoop ->
    local_step m (snd (run_threads cv2_resize cv2_putText pickle_dumps
                                   pickle_loads schedule pc m)).
Proof.
  induction schedule as [|t rest IH]; intros pc m Hi Hpc.
  - apply local_step_refl.
  - assert (Hstage : forall body : M unit, local body ->
      local_step m (snd (bind (while_running body)
                          (fun _ => run_threads cv2_resize cv2_putText pickle_dumps
                                                pickle_loads rest pc) m))).
    { intros body Hb. unfold bind.
      pose proof (local_while_running body Hb m) as H1.
      destruct (while_running body m) as [[[]|e] m1]; cbn [snd] in *; [|exact H1].
      eapply local_step_trans; [exact H1|].
      apply IH; [|exact Hpc]. destruct H1 as (H1 & _). congruence. }
    destruct t; cbn [run_threads].
    + apply Hstage, local_audio_capture.
    + apply Hstage, local_speech_recognition.
    + apply Hstage, local_translation.
    + unfold bind at 1, get_self at 1.
      destruct (running (me m)); [|apply local_step_refl].
      unfold bind.
      pose proof (local_video_capture m) as H1.
      destruct (video_capture_iteration cv2_resize cv2_putText m) as [[[]|e] m1];
        cbn [snd] in *; [|exact H1].
      eapply local_step_trans; [exact H1|].
      apply IH; [|exact Hpc]. destruct H1 as (H1 & _). congruence.
    + unfold bind, try_except.
      rewrite (network_step_out_of_call pc m Hi Hpc).
      apply IH; [exact Hi | discriminate].
Qed.

Lemma local_cleanup (m : machine) :
  socket (me m) = None -> connection (me m) = None ->
  local_step m (snd (cleanup m)).
Proof.
  destruct m as [s w o]. destruct s, w. cbn. intros -> ->.
  unfold cleanup, local_step.
  destruct teardown_replies0 as [|[[]|e1] [|[[]|e2] [|[[]|e3] l]]]; run;
    repeat split; eexists; (split; [rewrite <- ?app_assoc; reflexivity|]);
    reflexivity.
Qed.

(** C6.  In local-demo mode ([in_call] false, and [socket] and
    [connection] still [None] as [__init__] left them), the network thread
    is over at its first step without a call on the world or a change of
    state; and over a whole run of [start], whatever the interleaving of
    the five threads and whatever the world answers, no socket operation is
    made (none by the cleanup either) and [socket] and [connection] stay
    [None]. *)
Theorem local_demo_no_socket_ops (schedule : list thread) (fuel : nat) (m : machine) :
  in_call (me m) = false ->
  socket (me m) = None ->
  connection (me m) = None ->
  network_thread pickle_dumps pickle_loads (S fuel) m = (Ok Exited, m) /\
  let m' := snd (start cv2_resize cv2_putText pickle_dumps pickle_loads schedule m) in
  socket (me m') = None /\
  connection (me m') = None /\
  exists evs : list event, out m' = out m ++ evs /\ filter is_socket_op evs = [].
Proof.
  intros Hi Hs Hc. split.
  - unfold network_thread. cbn [network_thread_from]. unfold bind.
    rewrite (network_step_out_of_call NetStart m Hi) by discriminate.
    destruct fuel; reflexivity.
  - cbv zeta.
    assert (L : local_step m
      (snd (start cv2_resize cv2_putText pickle_dumps pickle_loads schedule m))).
    { unfold start. unfold bind at 1, modify_self at 1.
      set (m1 := mkMachine (set_running true (me m)) (env m) (out m)).
      assert (L1 : local_step m m1)
        by (subst m1; repeat split; exists []; rewrite app_nil_r; split; reflexivity).
      unfold bind.
      pose proof (local_run_threads schedule NetStart m1 Hi ltac:(discriminate)) as L2.
      destruct (run_threads cv2_resize cv2_putText pickle_dumps pickle_loads
                            schedule NetStart m1) as [[[]|e] m2]; cbn [snd] in *.
      + pose proof (local_step_trans _ _ _ L1 L2) as L3.
        assert (L4 : local_step m2 (snd (cleanup m2))).
        { destruct L3 as (_ & H2 & H3 & _). apply local_cleanup; congruence. }
        destruct (cleanup m2) as [[[]|e] m3]; cbn [snd] in *;
          exact (local_step_trans _ _ _ L3 L4).
      + exact (local_step_trans _ _ _ L1 L2).
      + exact (local_step_trans _ _ _ L1 L2). }
    destruct L as (_ & H2 & H3 & H4).
    repeat split; [congruence | congruence | exact H4].
Qed.

End OrchestratorFacts.

(* ===================================================================== *)
(** ** Runs on concrete inputs *)
(* ===================================================================== *)

Example pack_text_5 :
  struct_pack_BQ 1 5 = Ok [x01; x00; x00; x00; x00; x00; x00; x00; x05].
Proof. reflexivity. Qed.

Example pack_video_66000 :
  struct_pack_BQ 0 66000 = Ok [x00; x00; x00; x00; x00; x00; x01; x01; xd0].
Proof. reflexivity. Qed.

Example unpack_short : exists e, struct_unpack_BQ [x01; x00; x05] = Raise e.
Proof. eexists; reflexivity. Qed.

Example encode_hello :
  str_encode_utf8 (lit "hello") = Ok [x68; x65; x6c; x6c; x6f].
Proof. reflexivity. Qed.

(** U+0928 DEVANAGARI LETTER NA and U+20AC EURO SIGN. *)
Example encode_three_byte :
  str_encode_utf8 [0x928; 0x20AC] = Ok [xe0; xa4; xa8; xe2; x82; xac].
Proof. reflexivity. Qed.

Example decode_three_byte :
  bytes_decode_utf8 [xe0; xa4; xa8; xe2; x82; xac] = Ok [0x928; 0x20AC].
Proof. reflexivity. Qed.

Example decode_overlong : exists e, bytes_decode_utf8 [xc0; x80] = Raise e.
Proof. eexists; reflexivity. Qed.

(** Sending "hello": one [sendall] of the 9-byte header and the 5 bytes. *)
Example send_hello_wire :
  send_attempt Demo.dumps Demo.send_hello
  = (Ok Fallthrough,
     mkMachine Demo.in_call_client Demo.silent
       [E_sendall 0%nat (Demo.text_header_5 ++ [x68; x65; x6c; x6c; x6f])]).
Proof. reflexivity. Qed.

(** Receiving "hello" in two chunks: three [recv] calls, then the line. *)
Example receive_hello :
  out (snd (receive_attempt Demo.loads Demo.hello_stream))
  = [E_recv 0%nat 9; E_recv 0%nat 5; E_recv 0%nat 3;
     E_print (lit "Received text: hello")].
Proof. reflexivity. Qed.

(** A host sets the call up: socket 0 listens, socket 1 is the connection. *)
Example host_setup :
  let m := Demo.boot (set_connection None (set_socket None Demo.in_call_host))
                     Demo.silent in
  let r := network_thread_step Demo.dumps Demo.loads NetStart m in
  fst r = Ok NetLoop /\
  socket (me (snd r)) = Some 0%nat /\
  connection (me (snd r)) = Some 1%nat /\
  filter is_socket_op (out (snd r))
  = [E_socket 0%nat; E_setsockopt 0%nat; E_bind 0%nat (lit "0.0.0.0", 5000);
     E_sock_listen 0%nat; E_accept 0%nat 1%nat; E_settimeout 1%nat].
Proof. vm_compute. repeat split. Qed.

(** The whole local-demo run. *)
Example local_demo_run :
  let r := start Demo.resize Demo.putText Demo.dumps Demo.loads
                 Demo.local_demo_schedule Demo.local_demo in
  fst r = Ok Exited /\
  out (snd r)
  = [E_listen; E_cap_read;
     E_imshow (lit "Video Translator") (PyFrame [x10; x20]); E_waitKey;
     E_cap_release; E_destroyAllWindows; E_pygame_quit;
     E_print (lit "Program shutdown complete")].
Proof. vm_compute. repeat split. Qed.

(** Two passes of the video loop: "hello" (5 code points) is overlaid on
    both frames and is still the only item of [text_queue]. *)
Example two_frames_same_overlay :
  let m' := snd (video_passes Demo.resize Demo.putText 2 Demo.two_frames) in
  text_queue (me m') = [lit "hello"] /\
  out m'
  = [E_cap_read;
     E_imshow (lit "Video Translator") (PyFrame [x10; byte_of_Z (10 + 5)]);
     E_waitKey;
     E_cap_read;
     E_imshow (lit "Video Translator") (PyFrame [x20; byte_of_Z (10 + 5)]);
     E_waitKey].
Proof. vm_compute. repeat split. Qed.

(** A reset connection: the first message is gone, the second still
    queued, and the thread is at the loop test. *)
Example send_reset_pass :
  let r := network_thread_step Demo.dumps Demo.loads NetLoop Demo.send_reset in
  fst r = Ok NetLoop /\
  network_queue (me (snd r)) = [(lit "text", PyStr (lit "yo"))] /\
  out (snd r)
  = [E_sendall 0%nat
       ([x01; x00; x00; x00; x00; x00; x00; x00; x02] ++ [x68; x69])].
Proof. vm_compute. repeat split. Qed.

Lemma header_roundtrip_witness :
  exists header,
    struct_pack_BQ 1 (len [x68; x65; x6c; x6c; x6f]) = Ok header /\
    len header = 9 /\
    struct_unpack_BQ (firstn 9 (header ++ [x68; x65; x6c; x6c; x6f]))
    = Ok (1, len [x68; x65; x6c; x6c; x6f]).
Proof.
  apply (header_roundtrip 1 [x68; x65; x6c; x6c; x6f]);
    [right; reflexivity | reflexivity].
Defined.

Lemma translation_disabled_drops_witness :
  translation_iteration Demo.muted
  = (Ok tt,
     mkMachine (set_text_queue [] (me Demo.muted)) (env Demo.muted)
               (out Demo.muted)).
Proof.
  apply (translation_disabled_drops Demo.muted (lit "hello") []); reflexivity.
Defined.

Lemma recognition_outcome_witness :
  let m' := snd (speech_recognition_iteration Demo.heard_hello) in
  text_queue (me m') = [lit "hello"] /\
  network_queue (me m') = [(lit "text", PyStr (lit "hello"))] /\
  out m' = [E_recognize 7%nat (lit "en")].
Proof.
  apply (recognition_outcome Demo.heard_hello 7%nat [] (Ok (lit "hello")) []);
    reflexivity.
Defined.

Lemma transient_send_error_drops_witness :
  let m1 := snd (send_block Demo.dumps Demo.send_times_out) in
  network_thread_step Demo.dumps Demo.loads NetLoop Demo.send_times_out
  = (Ok NetLoop, m1) /\
  me m1 = set_network_queue [] (me Demo.send_times_out) /\
  recv_replies (env m1) = recv_replies (env Demo.send_times_out) /\
  exists data, out m1 = out Demo.send_times_out ++ [E_sendall 0%nat data].
Proof.
  apply (transient_send_error_drops Demo.dumps Demo.loads Demo.send_times_out
           (snd (send_block Demo.dumps Demo.send_times_out))
           (lit "text", PyStr (lit "hi")) [] 0%nat Demo.timed_out);
    reflexivity.
Defined.

Lemma truncated_message_discarded_witness :
  exists evs,
    Forall (is_recv_on 0%nat) evs /\
    let m' := mkMachine (me Demo.truncated_stream)
                        (set_recv_replies [] (env Demo.truncated_stream))
                        (out Demo.truncated_stream ++ evs) in
    receive_attempt Demo.loads Demo.truncated_stream = (Ok Continue, m') /\
    network_thread_step Demo.dumps Demo.loads NetLoop Demo.truncated_stream
    = (Ok NetLoop, m').
Proof.
  apply (truncated_message_discarded Demo.dumps Demo.loads
           Demo.truncated_stream Demo.truncated_stream 0%nat
           Demo.video_header_5 0 5 [[x01; x02]] []);
    try reflexivity.
  constructor; [discriminate | constructor].
Defined.

Lemma undecodable_payload_discarded_witness :
  exists evs,
    Forall (is_recv_on 0%nat) evs /\
    let line := lit "Text decode error: " ++ lit "invalid utf-8" in
    let m' := mkMachine (me Demo.bad_text_stream)
                        (set_recv_replies [] (env Demo.bad_text_stream))
                        (out Demo.bad_text_stream ++ evs ++ [E_print line]) in
    receive_attempt Demo.loads Demo.bad_text_stream = (Ok Fallthrough, m') /\
    network_thread_step Demo.dumps Demo.loads NetLoop Demo.bad_text_stream
    = (Ok NetLoop, m').
Proof.
  apply (undecodable_payload_discarded Demo.dumps Demo.loads
           Demo.bad_text_stream Demo.bad_text_stream 0%nat
           Demo.text_header_1 1 1 [[xff]] []
           (Exn UnicodeDecodeError (lit "invalid utf-8")));
    try reflexivity.
  - constructor; [discriminate | constructor].
  - right. split; reflexivity.
Defined.

Lemma local_demo_no_socket_ops_witness :
  network_thread Demo.dumps Demo.loads 1 Demo.local_demo
  = (Ok Exited, Demo.local_demo) /\
  let m' := snd (start Demo.resize Demo.putText Demo.dumps Demo.loads
                       Demo.local_demo_schedule Demo.local_demo) in
  socket (me m') = None /\
  connection (me m') = None /\
  exists evs, out m' = out Demo.local_demo ++ evs /\ filter is_socket_op evs = [].
Proof.
  apply (local_demo_no_socket_ops Demo.resize Demo.putText Demo.dumps Demo.loads
           Demo.local_demo_schedule 0 Demo.local_demo); reflexivity.
Defined.

(** C5, as the spec has it, fails.  A host in a call shuts down and
    [cap.release()] raises: the exception leaves the cleanup at once, and
    neither the connection (socket 1) nor the listening socket (socket 0)
    is closed, although both are among the releases of the cleanup. *)
Lemma cleanup_camera_failure_skips_close :
  In (E_close 1%nat) (releases (me Demo.camera_fails)) /\
  In (E_close 0%nat) (releases (me Demo.camera_fails)) /\
  fst (cleanup Demo.camera_fails) = Raise Demo.device_busy /\
  out (snd (cleanup Demo.camera_fails)) = [E_cap_release] /\
  ~ In (E_close 1%nat) (out (snd (cleanup Demo.camera_fails))) /\
  ~ In (E_close 0%nat) (out (snd (cleanup Demo.camera_fails))).
Proof.
  split; [cbn; do 3 right; left; reflexivity|].
  split; [cbn; do 4 right; left; reflexivity|].
  split; [reflexivity|].
  split; [reflexivity|].
  split; intros [H|[]]; discriminate H.
Qed.

(* ===================================================================== *)
(** ** More on the stages *)
(* ===================================================================== *)

Section StageOutcomes.

Context {frame audio : Type}.
Context (cv2_resize : frame -> Z * Z -> frame).
Context (cv2_putText : frame -> str -> Z * Z -> frame).

Local Abbreviation machine := (@machine frame audio).
Local Abbreviation event := (@event frame audio).

(** One pass of [audio_capture_thread], by the answer of [listen]: an
    utterance goes to the back of [audio_queue]; [WaitTimeoutError] is
    passed over in silence; any other exception is printed and followed by
    the 0.1 s pause.  The pass itself never raises. *)
Theorem audio_capture_outcome (m : machine) (r : result audio)
        (replies : list (result audio)) :
  listen_replies (env m) = r :: replies ->
  let m' := snd (audio_capture_iteration m) in
  fst (audio_capture_iteration m) = Ok tt /\
  match r with
  | Ok a =>
      audio_queue (me m') = audio_queue (me m) ++ [a] /\
      out m' = out m ++ [E_listen]
  | Raise e =>
      audio_queue (me m') = audio_queue (me m) /\
      out m' = out m ++ E_listen
               :: (if isinstance e [WaitTimeoutError] then []
                   else [E_print (lit "Audio capture error: " ++ exn_msg e);
                         E_sleep])
  end.
Proof.
  intros Hr. unfold audio_capture_iteration. run. rewrite Hr.
  destruct r as [a|e]; run.
  - repeat split.
  - destruct (isinstance e [WaitTimeoutError]); run;
      rewrite <- ?app_assoc; repeat split.
Qed.

(** One pass of [translation_thread] with translation switched on, by the
    answer of the translation engine.  A translation is put on
    [translation_queue] before synthesis is tried, so it stays there
    whatever synthesis and playback do; a failed translation queues
    nothing, tries no synthesis and prints one line.  Either way the text
    is off [text_queue] and the pass does not raise. *)
Theorem translation_outcome (m : machine) (text : str) (rest : list str)
        (r : result str) (replies : list (result str)) :
  text_queue (me m) = text :: rest ->
  translating (me m) = true ->
  mt_replies (env m) = r :: replies ->
  let m' := snd (translation_iteration m) in
  let asked := E_translate text (source_lang (me m)) (target_lang (me m)) in
  fst (translation_iteration m) = Ok tt /\
  text_queue (me m') = rest /\
  match r with
  | Ok translation =>
      translation_queue (me m') = translation_queue (me m) ++ [translation] /\
      exists tail,
        out m' = out m ++ asked :: E_gtts translation (target_lang (me m)) :: tail
  | Raise e =>
      translation_queue (me m') = translation_queue (me m) /\
      out m' = out m ++ [asked; E_print (lit "Translation error: " ++ exn_msg e)]
  end.
Proof.
  intros Hq Ht Hr. unfold translation_iteration. run. rewrite Hq. run.
  rewrite Ht. run. rewrite Hr.
  destruct r as [translation|e]; run.
  - destruct (tts_replies (env m)) as [|[fp|e] tts]; run.
    + repeat split. eexists. rewrite <- !app_assoc. reflexivity.
    + destruct (mixer_replies (env m)) as [|[[]|e1] [|[[]|e2] mx]] eqn:Hm; run;
        rewrite ?Hm; run;
        repeat split; eexists; rewrite <- !app_assoc; reflexivity.
    + repeat split. eexists. rewrite <- !app_assoc. reflexivity.
  - rewrite <- !app_assoc. repeat split.
Qed.

(** Whatever the engines answer, a pass of the capture, recognition or
    translation loop ends normally: every call that can raise is under a
    [try] whose last clause is [except Exception]. *)
Theorem stage_passes_never_raise (m : machine) :
  fst (audio_capture_iteration m) = Ok tt /\
  fst (speech_recognition_iteration m) = Ok tt /\
  fst (translation_iteration m) = Ok tt.
Proof.
  repeat split.
  - unfold audio_capture_iteration. run.
    destruct (listen_replies (env m)) as [|[a|e] l]; run; try reflexivity;
      try destruct (isinstance _ _); reflexivity.
  - unfold speech_recognition_iteration. run.
    destruct (audio_queue (me m)) as [|a q]; run; [reflexivity|].
    destruct (asr_replies (env m)) as [|[t|e] l]; run;
      try destruct (in_call (me m)); run; try reflexivity;
      repeat (destruct (isinstance _ _); run); reflexivity.
  - unfold translation_iteration. run.
    destruct (text_queue (me m)) as [|t q]; run; [reflexivity|].
    destruct (translating (me m)); run; [|reflexivity].
    destruct (mt_replies (env m)) as [|[tr|e] l]; run; try reflexivity.
    destruct (tts_replies (env m)) as [|[fp|e] tts]; run; try reflexivity.
    destruct (mixer_replies (env m)) as [|[[]|e1] [|[[]|e2] mx]] eqn:Hm; run;
      rewrite ?Hm; reflexivity.
Qed.

(** A pass of the video loop that gets a frame shows it with the overlay,
    and during a call puts that very frame, overlay included, on
    [network_queue] as [('video', frame)]; out of a call the queue is left
    alone.  The remote window is refreshed only when a remote frame is
    there. *)
Theorem video_pass_sends_shown_frame (m : machine) (f : frame)
        (cams : list (option frame)) :
  cam_replies (env m) = Some f :: cams ->
  let shown := PyFrame (overlay cv2_putText (me m) (cv2_resize f frame_size)) in
  let m' := snd (video_capture_iteration cv2_resize cv2_putText m) in
  network_queue (me m')
  = (if in_call (me m) then network_queue (me m) ++ [(lit "video", shown)]
     else network_queue (me m)) /\
  remote_frame (me m') = remote_frame (me m) /\
  out m'
  = out m ++ [E_cap_read; E_imshow (lit "Video Translator") shown]
    ++ match remote_frame (me m) with
       | PyNone => []
       | o => [E_imshow (lit "Remote Video") o]
       end
    ++ [E_waitKey].
Proof.
  intros Hc. unfold video_capture_iteration. run. rewrite Hc. run.
  destruct (in_call (me m)); run;
    destruct (remote_frame (me m)) eqn:Hrf; run;
    destruct (key_replies (env m)) as [|k ks]; run;
    try match goal with |- context [if ?c then _ else _] => destruct c end; run;
    rewrite <- ?app_assoc; repeat split; exact Hrf.
Qed.

(** The quit test of the video loop looks at the low 8 bits of the key
    code only: after a pass that got a frame, [running] is false exactly
    when it was false before or the key code is 113 ([ord('q')]) modulo
    256; no key (code -1) leaves it as it was. *)
Theorem video_quit_key (m : machine) (f : frame) (cams : list (option frame)) :
  cam_replies (env m) = Some f :: cams ->
  let k := hd (-1) (key_replies (env m)) in
  running (me (snd (video_capture_iteration cv2_resize cv2_putText m)))
  = running (me m) && negb (k mod 256 =? 113).
Proof.
  intros Hc. cbv zeta.
  assert (Hk : forall k, Z.land k 255 = k mod 256)
    by (intros k; change 255 with (Z.ones 8); rewrite Z.land_ones by lia; reflexivity).
  unfold video_capture_iteration. run. rewrite Hc. run.
  destruct (in_call (me m)); run;
    destruct (remote_frame (me m)); run;
    destruct (key_replies (env m)) as [|k ks]; run;
    rewrite ?andb_true_r; try reflexivity;
    rewrite Hk; destruct (k mod 256 =? 113); run;
    rewrite ?andb_true_r, ?andb_false_r; reflexivity.
Qed.

(** A pass of the video loop that gets no frame prints one line, pauses,
    and goes back to the loop test: nothing is shown or queued, and the
    keyboard is not read, so the quit key is not seen while the camera
    fails. *)
Theorem video_capture_failure (m : machine) :
  hd None (cam_replies (env m)) = None ->
  let m' := snd (video_capture_iteration cv2_resize cv2_putText m) in
  me m' = me m /\
  key_replies (env m') = key_replies (env m) /\
  out m' = out m ++ [E_cap_read; E_print (lit "Failed to capture frame"); E_sleep].
Proof.
  intros Hc. unfold video_capture_iteration. run.
  destruct (cam_replies (env m)) as [|[f|] cams]; cbn in Hc; try discriminate; run;
    rewrite <- ?app_assoc; repeat split.
Qed.

End StageOutcomes.

(* ===================================================================== *)
(** ** More on the wire format *)
(* ===================================================================== *)

Section CodecFacts.

Local Arguments Z_of_byte : simpl never.
Local Arguments byte_of_Z : simpl never.

Lemma Z_of_byte_of_small (z : Z) : 0 <= z < 256 -> Z_of_byte (byte_of_Z z) = z.
Proof. intros H. rewrite Z_of_byte_of_Z. apply Z.mod_small. exact H. Qed.

Lemma Some_eq {A} (a b : A) : Some a = Some b -> a = b.
Proof. congruence. Qed.

(** Solves the range and comparison side conditions on a code point that
    is split into 6-bit groups. *)
Ltac groups := Z.to_euclidean_division_equations; lia.

(** Decoding reads back the code point that was encoded and goes on with
    the bytes behind it. *)
Lemma utf8_decode_encode_cp (c : Z) (b rest : bytes) :
  utf8_encode_cp c = Some b ->
  utf8_decode_cps (b ++ rest) = option_map (cons c) (utf8_decode_cps rest).
Proof.
  unfold utf8_encode_cp.
  destruct (c <? 0) eqn:H0; [discriminate|].
  destruct (c <? 0x80) eqn:H1.
  { intros H. apply Some_eq in H. subst b. cbn [app utf8_decode_cps].
    rewrite Z_of_byte_of_small by lia. rewrite H1. reflexivity. }
  destruct (c <? 0x800) eqn:H2.
  { intros H. apply Some_eq in H. subst b. cbn [app utf8_decode_cps].
    rewrite !Z_of_byte_of_small by groups.
    unfold is_cont.
    replace (0xC0 + c / 64 <? 0x80) with false by (symmetry; groups).
    replace ((0x80 <=? 0x80 + c mod 64) && (0x80 + c mod 64 <=? 0xBF)) with true
      by (symmetry; groups).
    replace ((0xC2 <=? 0xC0 + c / 64) && (0xC0 + c / 64 <=? 0xDF)) with true
      by (symmetry; groups).
    cbn [negb]. do 2 f_equal. groups. }
  destruct (c <? 0x10000) eqn:H3.
  { destruct (is_surrogate c) eqn:Hs; [discriminate|].
    intros H. apply Some_eq in H. subst b. cbn [app utf8_decode_cps].
    rewrite !Z_of_byte_of_small by groups.
    unfold is_cont.
    replace (0xE0 + c / 4096 <? 0x80) with false by (symmetry; groups).
    replace ((0x80 <=? 0x80 + (c / 64) mod 64) && (0x80 + (c / 64) mod 64 <=? 0xBF))
      with true by (symmetry; groups).
    replace ((0x80 <=? 0x80 + c mod 64) && (0x80 + c mod 64 <=? 0xBF)) with true
      by (symmetry; groups).
    replace ((0xC2 <=? 0xE0 + c / 4096) && (0xE0 + c / 4096 <=? 0xDF)) with false
      by (symmetry; groups).
    replace ((0xE0 <=? 0xE0 + c / 4096) && (0xE0 + c / 4096 <=? 0xEF)) with true
      by (symmetry; groups).
    cbn [negb].
    replace ((0xE0 + c / 4096 - 0xE0) * 4096 + (0x80 + (c / 64) mod 64 - 0x80) * 64
             + (0x80 + c mod 64 - 0x80)) with c by groups.
    rewrite Hs. replace (c <? 0x800) with false by (symmetry; lia).
    reflexivity. }
  destruct (c <=? 0x10FFFF) eqn:H4; [|discriminate].
  intros H. apply Some_eq in H. subst b. cbn [app utf8_decode_cps].
  rewrite !Z_of_byte_of_small by groups.
  unfold is_cont.
  replace (0xF0 + c / 262144 <? 0x80) with false by (symmetry; groups).
  replace ((0x80 <=? 0x80 + (c / 4096) mod 64) && (0x80 + (c / 4096) mod 64 <=? 0xBF))
    with true by (symmetry; groups).
  replace ((0x80 <=? 0x80 + (c / 64) mod 64) && (0x80 + (c / 64) mod 64 <=? 0xBF))
    with true by (symmetry; groups).
  replace ((0x80 <=? 0x80 + c mod 64) && (0x80 + c mod 64 <=? 0xBF)) with true
    by (symmetry; groups).
  replace ((0xC2 <=? 0xF0 + c / 262144) && (0xF0 + c / 262144 <=? 0xDF)) with false
    by (symmetry; groups).
  replace ((0xE0 <=? 0xF0 + c / 262144) && (0xF0 + c / 262144 <=? 0xEF)) with false
    by (symmetry; groups).
  replace ((0xF0 <=? 0xF0 + c / 262144) && (0xF0 + c / 262144 <=? 0xF4)) with true
    by (symmetry; groups).
  cbn [negb].
  replace ((0xF0 + c / 262144 - 0xF0) * 262144
           + (0x80 + (c / 4096) mod 64 - 0x80) * 4096
           + (0x80 + (c / 64) mod 64 - 0x80) * 64 + (0x80 + c mod 64 - 0x80))
    with c by groups.
  replace ((c <? 0x10000) || (0x10FFFF <? c)) with false by (symmetry; lia).
  reflexivity.
Qed.

(** What [encode('utf-8')] produced, [decode('utf-8')] reads back. *)
Lemma utf8_decode_encode (s : str) (b : bytes) :
  utf8_encode_cps s = Some b -> utf8_decode_cps b = Some s.
Proof.
  revert b. induction s as [|c s IH]; intros b H; cbn [utf8_encode_cps] in H.
  - apply Some_eq in H. subst b. reflexivity.
  - destruct (utf8_encode_cp c) as [bc|] eqn:Hc; [|discriminate].
    destruct (utf8_encode_cps s) as [bs|] eqn:Hs; [|discriminate].
    apply Some_eq in H. subst b.
    rewrite (utf8_decode_encode_cp c bc bs Hc), (IH bs eq_refl). reflexivity.
Qed.

End CodecFacts.

(* ===================================================================== *)
(** ** More on the transport *)
(* ===================================================================== *)

Section TransportOutcomes.

Context {frame audio : Type}.
Context (pickle_dumps : @pyobj frame -> bytes).
Context (pickle_loads : bytes -> result (@pyobj frame)).

Local Abbreviation machine := (@machine frame audio).
Local Abbreviation event := (@event frame audio).
Local Abbreviation M := (@M frame audio).

Local Arguments send_block : simpl never.
Local Arguments send_attempt : simpl never.
Local Arguments receive_attempt : simpl never.
Local Arguments recv_payload : simpl never.
Local Arguments dispatch : simpl never.
Local Arguments network_iteration : simpl never.
Local Arguments network_leave : simpl never.
Local Arguments struct_unpack_BQ : simpl never.
Local Arguments struct_pack_BQ : simpl never.

(** *** The receive block *)

(** A header read that gives [b''], a buffer that is not 9 bytes long, or
    a timeout ends the pass at once: nothing is printed, no attribute
    changes, and the bytes that were read are gone (the next pass reads on
    behind them). *)
Theorem header_not_ready (m : machine) (conn : handle) (r : result bytes)
        (rest : list (result bytes)) :
  connection (me m) = Some conn ->
  recv_replies (env m) = r :: rest ->
  match r with
  | Ok header => len header <> 9
  | Raise e => isinstance e [socket_timeout] = true
  end ->
  receive_attempt pickle_loads m
  = (Ok Continue,
     mkMachine (me m) (set_recv_replies rest (env m)) (out m ++ [E_recv conn 9])).
Proof.
  intros Hc Hr Hbad. unfold receive_attempt. run. rewrite Hc. run. rewrite Hr.
  destruct r as [[|b bs]|e]; run.
  - reflexivity.
  - unfold struct_unpack_BQ.
    apply Z.eqb_neq in Hbad. rewrite Hbad. reflexivity.
  - rewrite Hbad. reflexivity.
Qed.

(** A complete message reaches [dispatch], after one [recv] for the header
    and one for each chunk. *)
Lemma receive_attempt_complete (m : machine) (conn : handle) (header : bytes)
      (tag L : Z) (chunks : list bytes) (rest : list (result bytes)) :
  connection (me m) = Some conn ->
  recv_replies (env m) = Ok header :: map Ok chunks ++ rest ->
  struct_unpack_BQ header = Ok (tag, L) ->
  Forall (fun c => c <> []) chunks ->
  len (List.concat chunks) = L ->
  exists evs : list event,
    Forall (is_recv_on conn) evs /\
    receive_attempt pickle_loads m
    = bind (dispatch pickle_loads tag (List.concat chunks))
           (fun _ => ret Fallthrough)
           (mkMachine (me m) (set_recv_replies rest (env m)) (out m ++ evs)).
Proof.
  intros Hc Hr Hu Hne Hlen.
  destruct (unpack_Ok_nonempty _ _ _ Hu) as (b & bs & ->).
  set (m1 := mkMachine (me m)
                       (set_recv_replies (map Ok chunks ++ rest) (env m))
                       (out m ++ [E_recv conn 9])).
  destruct (recv_payload_chunks conn L rest chunks
              (S (List.length rest)) m1 0 [])
    as (evs & Fe & He);
    [exact Hc | reflexivity | apply needed_exact; [assumption | lia] |].
  exists (E_recv conn 9 :: evs).
  split; [constructor; [eexists; reflexivity | exact Fe]|].
  unfold receive_attempt. run. rewrite Hc. run. rewrite Hr. run.
  rewrite Hu. unfold recv_fuel. run. fold m1.
  rewrite (recv_payload_fuel L (S (List.length (map Ok chunks ++ rest)))
             m1 0 []) by (cbn; lia).
  change (recv_replies (env m1)) with (map Ok chunks ++ rest).
  replace (S (List.length (map Ok chunks ++ rest)))
    with (List.length chunks + S (List.length rest))%nat
    by (rewrite length_app, length_map; cbn; lia).
  rewrite Z.add_0_l in He. rewrite He, recv_payload_S.
  rewrite Hlen, Z.ltb_irrefl. run. rewrite Z.ltb_irrefl.
  subst m1. cbn [me env out]. rewrite <- !app_assoc. cbn [app].
  unfold dispatch.
  destruct (tag =? 0); [|destruct (tag =? 1)]; run.
  - destruct (pickle_loads (List.concat chunks)); reflexivity.
  - destruct (bytes_decode_utf8 (List.concat chunks)); reflexivity.
  - reflexivity.
Qed.

(** A complete message whose type byte is neither 0 nor 1 is read off the
    stream and dropped: nothing is printed and no attribute changes. *)
Theorem unknown_type_ignored (m : machine) (conn : handle) (header : bytes)
        (tag L : Z) (chunks : list bytes) (rest : list (result bytes)) :
  connection (me m) = Some conn ->
  recv_replies (env m) = Ok header :: map Ok chunks ++ rest ->
  struct_unpack_BQ header = Ok (tag, L) ->
  Forall (fun c => c <> []) chunks ->
  len (List.concat chunks) = L ->
  tag <> 0 -> tag <> 1 ->
  exists evs : list event,
    Forall (is_recv_on conn) evs /\
    receive_attempt pickle_loads m
    = (Ok Fallthrough,
       mkMachine (me m) (set_recv_replies rest (env m)) (out m ++ evs)).
Proof.
  intros Hc Hr Hu Hne Hlen H0 H1.
  destruct (receive_attempt_complete m conn header tag L chunks rest
              Hc Hr Hu Hne Hlen) as (evs & Fe & He).
  exists evs. split; [exact Fe|]. rewrite He. unfold dispatch.
  apply Z.eqb_neq in H0, H1. rewrite H0, H1. reflexivity.
Qed.

(** A text message that arrives whole, in whatever chunks, is printed:
    what the sender's [encode('utf-8')] produced from [t] comes out of the
    receiver's [decode('utf-8')] as [t]. *)
Theorem text_message_round_trip (ms mr : machine) (t : str)
        (q : list (str * pyobj)) (cs cr : handle) (payload : bytes) :
  network_queue (me ms) = (lit "text", PyStr t) :: q ->
  connection (me ms) = Some cs ->
  str_encode_utf8 t = Ok payload ->
  len payload < 2 ^ 64 ->
  connection (me mr) = Some cr ->
  exists header,
    (exists tail,
       out (snd (send_attempt pickle_dumps ms))
       = out ms ++ E_sendall cs (header ++ payload) :: tail) /\
    forall (chunks : list bytes) (rest : list (result bytes)),
      Forall (fun c => c <> []) chunks ->
      List.concat chunks = payload ->
      recv_replies (env mr) = Ok header :: map Ok chunks ++ rest ->
      exists evs : list event,
        Forall (is_recv_on cr) evs /\
        receive_attempt pickle_loads mr
        = (Ok Fallthrough,
           mkMachine (me mr) (set_recv_replies rest (env mr))
                     (out mr ++ evs ++ [E_print (lit "Received text: " ++ t)])).
Proof.
  intros Hq Hcs Henc Hl Hcr.
  destruct (send_attempt_sends pickle_dumps ms cs (lit "text") (PyStr t) q 1 payload
              Hq Hcs) as (header & tail & Hp & Hout & _);
    [right; repeat split; exact Henc | exact Hl |].
  exists header. split; [eexists; exact Hout|].
  intros chunks rest Hne Hcat Hr.
  destruct (pack_Ok_unpack _ _ _ Hp) as [_ Hu].
  destruct (receive_attempt_complete mr cr header 1 (len payload) chunks rest
              Hcr Hr Hu Hne) as (evs & Fe & He); [congruence|].
  exists evs. split; [exact Fe|]. rewrite He. unfold dispatch. run.
  rewrite Hcat. unfold bytes_decode_utf8.
  unfold str_encode_utf8 in Henc.
  destruct (utf8_encode_cps t) as [b|] eqn:Hb; [|discriminate].
  injection Henc as <-. rewrite (utf8_decode_encode t b Hb). run.
  rewrite <- !app_assoc. reflexivity.
Qed.

(** A video message that arrives whole, in whatever chunks, replaces
    [remote_frame] by what [pickle.loads] makes of the payload; when
    [loads] undoes [dumps] on the object sent, that is the object sent.
    Nothing is printed. *)
Theorem video_message_round_trip (ms mr : machine) (o : pyobj)
        (q : list (str * pyobj)) (cs cr : handle) :
  network_queue (me ms) = (lit "video", o) :: q ->
  connection (me ms) = Some cs ->
  len (pickle_dumps o) < 2 ^ 64 ->
  pickle_loads (pickle_dumps o) = Ok o ->
  connection (me mr) = Some cr ->
  exists header,
    (exists tail,
       out (snd (send_attempt pickle_dumps ms))
       = out ms ++ E_sendall cs (header ++ pickle_dumps o) :: tail) /\
    forall (chunks : list bytes) (rest : list (result bytes)),
      Forall (fun c => c <> []) chunks ->
      List.concat chunks = pickle_dumps o ->
      recv_replies (env mr) = Ok header :: map Ok chunks ++ rest ->
      exists evs : list event,
        Forall (is_recv_on cr) evs /\
        receive_attempt pickle_loads mr
        = (Ok Fallthrough,
           mkMachine (set_remote_frame o (me mr))
                     (set_recv_replies rest (env mr)) (out mr ++ evs)).
Proof.
  intros Hq Hcs Hl Hinv Hcr.
  destruct (send_attempt_sends pickle_dumps ms cs (lit "video") o q 0 (pickle_dumps o)
              Hq Hcs) as (header & tail & Hp & Hout & _);
    [left; repeat split | exact Hl |].
  exists header. split; [eexists; exact Hout|].
  intros chunks rest Hne Hcat Hr.
  destruct (pack_Ok_unpack _ _ _ Hp) as [_ Hu].
  destruct (receive_attempt_complete mr cr header 0 (len (pickle_dumps o)) chunks rest
              Hcr Hr Hu Hne) as (evs & Fe & He); [congruence|].
  exists evs. split; [exact Fe|]. rewrite He. unfold dispatch. run.
  rewrite Hcat, Hinv. reflexivity.
Qed.

(** A timeout in the middle of a payload ends the pass in silence: the
    chunks read so far are dropped, no attribute changes, and the stream is
    left where the timeout struck, inside the payload. *)
Theorem payload_timeout_discards (m : machine) (conn : handle) (header : bytes)
        (tag L : Z) (chunks : list bytes) (e : exn) (rest : list (result bytes)) :
  connection (me m) = Some conn ->
  recv_replies (env m) = Ok header :: map Ok chunks ++ Raise e :: rest ->
  struct_unpack_BQ header = Ok (tag, L) ->
  Forall (fun c => c <> []) chunks ->
  len (List.concat chunks) < L ->
  isinstance e [socket_timeout] = true ->
  exists evs : list event,
    Forall (is_recv_on conn) evs /\
    receive_attempt pickle_loads m
    = (Ok Continue,
       mkMachine (me m) (set_recv_replies rest (env m)) (out m ++ evs)).
Proof.
  intros Hc Hr Hu Hne Hlt He.
  destruct (unpack_Ok_nonempty _ _ _ Hu) as (b & bs & ->).
  set (m1 := mkMachine (me m)
                       (set_recv_replies (map Ok chunks ++ Raise e :: rest) (env m))
                       (out m ++ [E_recv conn 9])).
  destruct (recv_payload_chunks conn L (Raise e :: rest) chunks
              (S (S (List.length rest))) m1 0 [])
    as (evs & Fe & Hp);
    [exact Hc | reflexivity | apply needed_short; [assumption | lia] |].
  exists (E_recv conn 9 :: evs ++ [E_recv conn (Z.min (L - len (List.concat chunks)) 4096)]).
  split.
  { constructor; [eexists; reflexivity|].
    apply Forall_app. split; [exact Fe|].
    constructor; [eexists; reflexivity | constructor]. }
  unfold receive_attempt. run. rewrite Hc. run. rewrite Hr. run.
  rewrite Hu. unfold recv_fuel. run. fold m1.
  rewrite (recv_payload_fuel L (S (List.length (map Ok chunks ++ Raise e :: rest)))
             m1 0 []) by (cbn; lia).
  change (recv_replies (env m1)) with (map Ok chunks ++ Raise e :: rest).
  replace (S (List.length (map Ok chunks ++ Raise e :: rest)))
    with (List.length chunks + S (S (List.length rest)))%nat
    by (rewrite length_app, length_map; cbn; lia).
  rewrite Z.add_0_l in Hp. rewrite Hp, recv_payload_S.
  apply Z.ltb_lt in Hlt. rewrite Hlt. run. rewrite Hc. run. rewrite He.
  subst m1. cbn. rewrite <- !app_assoc. reflexivity.
Qed.

(** *** What the receive block asks of [recv] *)

Lemma emits_ret {A} (P : event -> Prop) (a : A) : emits P (ret a : M A).
Proof. intros m. exists []. rewrite app_nil_r. split; [reflexivity | constructor]. Qed.

Lemma emits_raise {A} (P : event -> Prop) (e : exn) : emits P (raise e : M A).
Proof. intros m. exists []. rewrite app_nil_r. split; [reflexivity | constructor]. Qed.

Lemma emits_lift {A} (P : event -> Prop) (r : result A) : emits P (lift r : M A).
Proof. intros m. exists []. rewrite app_nil_r. split; [reflexivity | constructor]. Qed.

Lemma emits_get_self (P : event -> Prop) : emits P (get_self (frame:=frame) (audio:=audio)).
Proof. intros m. exists []. rewrite app_nil_r. split; [reflexivity | constructor]. Qed.

Lemma emits_modify_self (P : event -> Prop) (f : @self frame audio -> @self frame audio) :
  emits P (modify_self f).
Proof. intros m. exists []. cbn. rewrite app_nil_r. split; [reflexivity | constructor]. Qed.

Lemma emits_emit (P : event -> Prop) (e : event) : P e -> emits P (emit e).
Proof. intros He m. exists [e]. split; [reflexivity | constructor; [exact He | constructor]]. Qed.

Lemma emits_reply {R} (P : event -> Prop) (get : @world frame audio -> list R)
      (set : list R -> @world frame audio -> @world frame audio) (default : R) :
  emits P (reply get set default).
Proof.
  intros m. exists []. unfold reply.
  destruct (get (env m)); cbn; rewrite app_nil_r; split; (reflexivity || constructor).
Qed.

Lemma emits_bind {A B} (P : event -> Prop) (c : M A) (k : A -> M B) :
  emits P c -> (forall a, emits P (k a)) -> emits P (bind c k).
Proof.
  intros Hc Hk m. unfold bind. destruct (Hc m) as (e1 & H1 & F1).
  destruct (c m) as [[a|e] m1]; cbn [snd] in *.
  - destruct (Hk a m1) as (e2 & H2 & F2). exists (e1 ++ e2).
    rewrite H2, H1, app_assoc. split; [reflexivity | apply Forall_app; auto].
  - exists e1. auto.
Qed.

Lemma emits_try_except {A} (P : event -> Prop) (body : M A)
      (handler : exn -> option (M A)) :
  emits P body -> (forall e h, handler e = Some h -> emits P h) ->
  emits P (try_except body handler).
Proof.
  intros Hb Hh m. unfold try_except. destruct (Hb m) as (e1 & H1 & F1).
  destruct (body m) as [[a|e] m1]; cbn [snd] in *; [exists e1; auto|].
  destruct (handler e) as [h|] eqn:E; [|exists e1; auto].
  destruct (Hh e h E m1) as (e2 & H2 & F2). exists (e1 ++ e2).
  rewrite H2, H1, app_assoc. split; [reflexivity | apply Forall_app; auto].
Qed.

(** Breaks a method down to the calls it is made of. *)
Ltac emitted_calls :=
  repeat (intros; cbv zeta;
    lazymatch goal with
    | |- emits _ (bind _ _) => apply emits_bind
    | |- emits _ (try_except _ _) => apply emits_try_except
    | |- emits _ (ret _) => apply emits_ret
    | |- emits _ (raise _) => apply emits_raise
    | |- emits _ (lift _) => apply emits_lift
    | |- emits _ get_self => apply emits_get_self
    | |- emits _ (modify_self _) => apply emits_modify_self
    | |- emits _ (reply _ _ _) => apply emits_reply
    | |- emits _ (let (_, _) := ?x in _) => destruct x
    | |- emits _ (match ?x with _ => _ end) => destruct x eqn:?
    | H : (if ?c then _ else _) = Some _ |- _ => destruct c
    | H : Some _ = Some _ |- _ => apply Some_eq in H; subst
    | |- emits _ (print _) => unfold print
    | |- emits _ the_connection => unfold the_connection
    | |- emits _ (recv _ _) => unfold recv
    end).

Lemma emits_recv_payload (fuel : nat) :
  forall (msg_size received : Z) (acc : list bytes),
    emits bounded_recv_or_print
          (recv_payload (frame:=frame) (audio:=audio) fuel msg_size received acc).
Proof.
  induction fuel as [|fuel IH]; intros msg_size received acc.
  - apply emits_raise.
  - rewrite recv_payload_S.
    destruct (received <? msg_size) eqn:Hlt; [|apply emits_ret].
    emitted_calls; try apply IH.
    apply emits_emit. cbn. lia.
Qed.

(** Every [recv] of the receive block asks for at least 1 and at most 4096
    bytes (9 for the header, then what is still missing of the payload,
    capped at 4096), and beside [recv] the block makes no call on the world
    but [print]. *)
Theorem recv_sizes_bounded (m : machine) :
  exists evs : list event,
    out (snd (receive_attempt pickle_loads m)) = out m ++ evs /\
    Forall bounded_recv_or_print evs.
Proof.
  revert m.
  change (@emits frame audio _ bounded_recv_or_print (receive_attempt pickle_loads)).
  unfold receive_attempt, recv_fuel, dispatch.
  emitted_calls;
    try apply emits_recv_payload;
    try (apply emits_emit; cbn; lia);
    try (apply emits_emit; exact I).
  intros m0. exists []. rewrite app_nil_r. split; [reflexivity | constructor].
Qed.

(** *** Order on the wire *)

(** With a silent peer and a healthy connection, a pass sends the message
    at the head of the queue and finds nothing to read. *)
Lemma pass_sends_one (m : machine) (conn : handle) (item : str * pyobj)
      (q : list (str * pyobj)) (wire : bytes) :
  running (me m) = true ->
  connection (me m) = Some conn ->
  network_queue (me m) = item :: q ->
  framed pickle_dumps item wire ->
  sendall_replies (env m) = [] ->
  recv_replies (env m) = [] ->
  network_thread_step pickle_dumps pickle_loads NetLoop m
  = (Ok NetLoop,
     mkMachine (set_network_queue q (me m)) (env m)
               (out m ++ [E_sendall conn wire; E_recv conn 9])).
Proof.
  intros Hrun Hc Hq (tag & payload & header & Hk & Hp & ->) Hs Hr.
  destruct item as [data_type data]. cbn [fst snd] in Hk.
  unfold network_thread_step. run. rewrite Hrun, Hc.
  unfold network_iteration, send_attempt, send_block. run. rewrite Hq. run.
  destruct Hk as [(-> & -> & ->)|(-> & -> & He)].
  - change (str_eqb (lit "video") (lit "video")) with true. run.
    rewrite Hp. run. rewrite Hc. run. rewrite Hs. run.
    unfold receive_attempt. run. rewrite Hc. run. rewrite Hr. run.
    rewrite <- !app_assoc. reflexivity.
  - change (str_eqb (lit "text") (lit "video")) with false.
    change (str_eqb (lit "text") (lit "text")) with true. run.
    rewrite He. run. rewrite Hp. run. rewrite Hc. run. rewrite Hs. run.
    unfold receive_attempt. run. rewrite Hc. run. rewrite Hr. run.
    rewrite <- !app_assoc. reflexivity.
Qed.

(** Messages leave in queue order, one [sendall] each, with nothing in
    between: after as many passes as there are messages at the front of the
    queue, the arguments of the [sendall] calls are the framed messages in
    the order they were queued, and the queue holds what was behind them.
    So the byte stream on the connection is the frames end to end. *)
Theorem messages_sent_in_order (items : list (str * pyobj)) (wires : list bytes) :
  forall (later : list (str * pyobj)) (m : machine) (conn : handle),
    running (me m) = true ->
    connection (me m) = Some conn ->
    network_queue (me m) = items ++ later ->
    Forall2 (framed pickle_dumps) items wires ->
    sendall_replies (env m) = [] ->
    recv_replies (env m) = [] ->
    exists (m' : machine) (evs : list event),
      network_thread_from pickle_dumps pickle_loads (List.length items) NetLoop m
      = (Ok StillRunning, m') /\
      network_queue (me m') = later /\
      out m' = out m ++ evs /\
      sent evs = wires.
Proof.
  intros later m conn Hrun Hc Hq F. revert m Hrun Hc Hq.
  induction F as [|item wire items wires Hf F IH]; intros m Hrun Hc Hq Hs Hr.
  - exists m, []. cbn. rewrite app_nil_r. repeat split. exact Hq.
  - cbn [List.length network_thread_from]. unfold bind.
    rewrite (pass_sends_one m conn item (items ++ later) wire Hrun Hc Hq Hf Hs Hr).
    destruct (IH (mkMachine (set_network_queue (items ++ later) (me m)) (env m)
                            (out m ++ [E_sendall conn wire; E_recv conn 9])))
      as (m' & evs & H1 & H2 & H3 & H4); try assumption; try reflexivity.
    exists m', ([E_sendall conn wire; E_recv conn 9] ++ evs).
    repeat split; try assumption.
    + rewrite H3. cbn [out]. rewrite <- app_assoc. reflexivity.
    + cbn. rewrite H4. reflexivity.
Qed.

(** *** The ways out of the loop *)

(** The [finally] block when no exception is in flight: the connection is
    closed, then the socket, then the closing line is printed; a [close]
    that raises ends the block there. *)
Lemma network_leave_trace (m : machine) :
  match first_raise (closes (me m)) (teardown_replies (env m)) with
  | None =>
      exists w',
        network_leave None m
        = (Ok NetDone,
           mkMachine (me m) w'
             (out m ++ closes (me m) ++ [E_print (lit "Network connection closed")]))
  | Some e =>
      exists w',
        network_leave None m
        = (Raise e,
           mkMachine (me m) w'
             (out m ++ attempted (closes (me m)) (teardown_replies (env m))))
  end.
Proof.
  destruct m as [s w o]. destruct s, w. unfold network_leave, network_finally, closes.
  destruct connection0, socket0;
    destruct teardown_replies0 as [|[[]|e1] [|[[]|e2] l]]; run;
    eexists; rewrite <- ?app_assoc, ?app_nil_r; reflexivity.
Qed.

(** When the loop test fails, because [running] went false or there is no
    connection, the thread closes the connection and then the socket,
    prints the closing line and is over.  Messages still queued stay
    queued.  A [close] that raises ends the thread there: the closes after
    it are not made. *)
Theorem loop_exit_closes (m : machine) :
  running (me m) = false \/ connection (me m) = None ->
  match first_raise (closes (me m)) (teardown_replies (env m)) with
  | None =>
      exists w',
        network_thread_step pickle_dumps pickle_loads NetLoop m
        = (Ok NetDone,
           mkMachine (me m) w'
             (out m ++ closes (me m) ++ [E_print (lit "Network connection closed")]))
  | Some e =>
      exists w',
        network_thread_step pickle_dumps pickle_loads NetLoop m
        = (Raise e,
           mkMachine (me m) w'
             (out m ++ attempted (closes (me m)) (teardown_replies (env m))))
  end.
Proof.
  intros Hexit. pose proof (network_leave_trace m) as L.
  assert (E : network_thread_step pickle_dumps pickle_loads NetLoop m
              = network_leave None m).
  { unfold network_thread_step. run.
    destruct Hexit as [H|H]; rewrite H; [|destruct (running (me m))]; reflexivity. }
  rewrite E. exact L.
Qed.

(** The send block changes nothing the [finally] block looks at. *)
Lemma send_block_keeps (m : machine) :
  let m1 := snd (send_block pickle_dumps m) in
  closes (me m1) = closes (me m) /\
  teardown_replies (env m1) = teardown_replies (env m).
Proof.
  cbv zeta. unfold send_block. run.
  destruct (network_queue (me m)) as [|[data_type data] rest]; run; [split; reflexivity|].
  destruct (str_eqb data_type (lit "video")); run.
  - destruct (struct_pack_BQ 0 (len (pickle_dumps data))); run; [|split; reflexivity].
    destruct (connection (me m)) eqn:Hc; run; [|unfold closes; cbn; rewrite Hc; split; reflexivity].
    destruct (sendall_replies (env m)) as [|[[]|e] sr]; run;
      unfold closes; cbn; rewrite Hc; split; reflexivity.
  - destruct (str_eqb data_type (lit "text")); run; [|split; reflexivity].
    destruct (obj_encode_utf8 data) as [payload|e]; run; [|split; reflexivity].
    destruct (struct_pack_BQ 1 (len payload)); run; [|split; reflexivity].
    destruct (connection (me m)) eqn:Hc; run; [|unfold closes; cbn; rewrite Hc; split; reflexivity].
    destruct (sendall_replies (env m)) as [|[[]|e] sr]; run;
      unfold closes; cbn; rewrite Hc; split; reflexivity.
Qed.

(** An exception in the send block that is none of the three transient
    ones (an error of [sendall] of another class, a text that cannot be
    encoded, ...) ends the transport: one line is printed, the loop is
    left, the connection and the socket are closed, and the thread is
    over.  No receive is tried in that pass. *)
Theorem fatal_send_error_ends_transport (m m1 : machine) (e : exn) :
  running (me m) = true ->
  connection (me m) <> None ->
  send_block pickle_dumps m = (Raise e, m1) ->
  isinstance e [ConnectionResetError; BrokenPipeError; socket_timeout] = false ->
  first_raise (closes (me m)) (teardown_replies (env m)) = None ->
  exists w',
    network_thread_step pickle_dumps pickle_loads NetLoop m
    = (Ok NetDone,
       mkMachine (me m1) w'
         (out m1 ++ E_print (lit "Send error: " ++ exn_msg e)
          :: closes (me m) ++ [E_print (lit "Network connection closed")])).
Proof.
  intros Hrun Hc Hb Hi Hcl.
  destruct (send_block_keeps m) as [K1 K2]. rewrite Hb in K1, K2. cbn [snd] in K1, K2.
  pose proof (network_leave_trace
                (mkMachine (me m1) (env m1)
                   (out m1 ++ [E_print (lit "Send error: " ++ exn_msg e)]))) as L.
  cbn [me env out] in L.
  rewrite K1, K2, Hcl in L. destruct L as [w' L]. exists w'.
  unfold network_thread_step. run. rewrite Hrun.
  destruct (connection (me m)); [|congruence].
  unfold network_iteration, send_attempt. run. rewrite Hb, Hi. run.
  rewrite L. rewrite <- app_assoc. reflexivity.
Qed.

(** An exception of [recv] that is neither a timeout nor [struct.error]
    ends the transport in the same way: one line, the two closes, the
    closing line, and the thread is over. *)
Theorem fatal_receive_error_ends_transport (m0 m : machine) (conn : handle)
        (e : exn) (rest : list (result bytes)) :
  running (me m0) = true ->
  connection (me m0) = Some conn ->
  send_attempt pickle_dumps m0 = (Ok Fallthrough, m) ->
  connection (me m) = Some conn ->
  recv_replies (env m) = Raise e :: rest ->
  isinstance e [socket_timeout] = false ->
  isinstance e [struct_error] = false ->
  first_raise (closes (me m)) (teardown_replies (env m)) = None ->
  exists w',
    network_thread_step pickle_dumps pickle_loads NetLoop m0
    = (Ok NetDone,
       mkMachine (me m) w'
         (out m ++ [E_recv conn 9; E_print (lit "Receive error: " ++ exn_msg e)]
          ++ closes (me m) ++ [E_print (lit "Network connection closed")])).
Proof.
  intros Hrun Hc0 Hs Hc Hr H1 H2 Hcl.
  pose proof (network_leave_trace
                (mkMachine (me m) (set_recv_replies rest (env m))
                   ((out m ++ [E_recv conn 9])
                    ++ [E_print (lit "Receive error: " ++ exn_msg e)]))) as L.
  cbn [me env out] in L.
  change (teardown_replies (set_recv_replies rest (env m)))
    with (teardown_replies (env m)) in L.
  rewrite Hcl in L. destruct L as [w' L]. exists w'.
  unfold network_thread_step. run. rewrite Hrun, Hc0.
  unfold network_iteration. run. rewrite Hs.
  unfold receive_attempt. run. rewrite Hc. run. rewrite Hr. run.
  rewrite H1, H2. run. rewrite L.
  rewrite <- !app_assoc. reflexivity.
Qed.

(** *** Setting the call up *)

(** When no setup call raises, the thread reaches its loop with the socket
    made and the connection in place: for a host the connection is the new
    object [accept] returned, for a client it is the socket itself.  The
    socket operations are the creation, [setsockopt] (host only), the setup
    calls in order, and [settimeout] on the connection. *)
Theorem network_setup_success (m : machine) :
  in_call (me m) = true ->
  first_raise (setup_calls (me m) (next_handle (env m))) (setup_replies (env m))
  = None ->
  let h := next_handle (env m) in
  let conn := if is_host (me m) then S h else h in
  let r := network_thread_step pickle_dumps pickle_loads NetStart m in
  fst r = Ok NetLoop /\
  socket (me (snd r)) = Some h /\
  connection (me (snd r)) = Some conn /\
  filter is_socket_op (out (snd r))
  = filter is_socket_op (out m)
    ++ setup_ops (me m) h (setup_calls (me m) h) ++ [E_settimeout conn].
Proof.
  destruct m as [s w o]. destruct s, w. cbn [me env out in_call next_handle setup_replies].
  intros -> Hok. cbv zeta. unfold setup_ops, setup_calls in *.
  cbn [is_host host port] in *.
  unfold network_thread_step, network_setup. run.
  destruct is_host0.
  - destruct setup_replies0 as [|[[]|e1] [|[[]|e2] [|[[]|e3] l]]];
      cbn in Hok; try discriminate; run;
      rewrite ?filter_app; cbn; rewrite <- ?app_assoc; repeat split.
  - destruct setup_replies0 as [|[[]|e1] l];
      cbn in Hok; try discriminate; run;
      rewrite ?filter_app; cbn; rewrite <- ?app_assoc; repeat split.
Qed.

(** When a setup call raises, the transport is over before its loop: the
    error is printed, the socket that was made is closed, no connection is
    left behind, and no byte is sent or received.  The calls made are those
    up to the one that raised. *)
Theorem network_setup_failure (m : machine) (e : exn) :
  in_call (me m) = true ->
  connection (me m) = None ->
  first_raise (setup_calls (me m) (next_handle (env m))) (setup_replies (env m))
  = Some e ->
  first_raise ([E_close (next_handle (env m))] : list event)
              (teardown_replies (env m)) = None ->
  let h := next_handle (env m) in
  let r := network_thread_step pickle_dumps pickle_loads NetStart m in
  fst r = Ok NetDone /\
  socket (me (snd r)) = Some h /\
  connection (me (snd r)) = None /\
  filter is_socket_op (out (snd r))
  = filter is_socket_op (out m)
    ++ setup_ops (me m) h (attempted (setup_calls (me m) h) (setup_replies (env m)))
    ++ [E_close h] /\
  In (E_print (lit "Network setup error: " ++ exn_msg e)) (out (snd r)).
Proof.
  destruct m as [s w o]. destruct s, w.
  cbn [me env out in_call connection next_handle setup_replies teardown_replies].
  intros -> -> Hbad Hcl. cbv zeta. unfold setup_ops, setup_calls in *.
  cbn [is_host host port] in *.
  unfold network_thread_step, network_setup, network_leave, network_finally. run.
  destruct is_host0.
  - destruct setup_replies0 as [|[[]|e1] [|[[]|e2] [|[[]|e3] l]]];
      cbn in Hbad; try discriminate; apply Some_eq in Hbad; subst; run;
      destruct teardown_replies0 as [|[[]|e4] l']; cbn in Hcl; try discriminate; run;
      rewrite ?filter_app; cbn; rewrite <- ?app_assoc; repeat split;
      rewrite ?in_app_iff; cbn; tauto.
  - destruct setup_replies0 as [|[[]|e1] l];
      cbn in Hbad; try discriminate; apply Some_eq in Hbad; subst; run;
      destruct teardown_replies0 as [|[[]|e4] l']; cbn in Hcl; try discriminate; run;
      rewrite ?filter_app; cbn; rewrite <- ?app_assoc; repeat split;
      rewrite ?in_app_iff; cbn; tauto.
Qed.

End TransportOutcomes.

(* ===================================================================== *)
(** ** The menus and the main block *)
(* ===================================================================== *)

Section MenuFacts.

Context {frame audio : Type}.
Context (py_int : str -> option Z).

Local Abbreviation machine := (@machine frame audio).
Local Abbreviation event := (@event frame audio).
Local Abbreviation M := (@M frame audio).

Local Arguments language_rounds : simpl never.
Local Arguments print_catalog : simpl never.
Local Arguments nth_code : simpl never.
Local Arguments nth_name : simpl never.
Local Arguments languages : simpl never.

(** One round of [show_language_menu], on the lines left. *)
Lemma language_rounds_eq (lines : list str) :
  language_rounds (frame:=frame) (audio:=audio) py_int lines
  = bind (print (10 :: lit "Select your language (number): ")) (fun _ =>
    match lines with
    | [] => raise end_of_input
    | a :: lines1 =>
        match py_int a with
        | None =>
            bind (print (lit "Please enter a number."))
                 (fun _ => language_rounds py_int lines1)
        | Some src_choice =>
            bind (print (lit "Select target language (number): ")) (fun _ =>
            match lines1 with
            | [] => raise end_of_input
            | b :: lines2 =>
                match py_int b with
                | None =>
                    bind (print (lit "Please enter a number."))
                         (fun _ => language_rounds py_int lines2)
                | Some tgt_choice =>
                    if (1 <=? src_choice) && (src_choice <=? len languages)
                       && (1 <=? tgt_choice) && (tgt_choice <=? len languages)
                    then
                      bind (modify_self (set_source_lang (nth_code src_choice))) (fun _ =>
                      bind (modify_self (set_target_lang (nth_code tgt_choice))) (fun _ =>
                      bind (print (10 :: lit "Translation set: " ++ nth_name src_choice
                                   ++ lit " -> " ++ nth_name tgt_choice)) (fun _ =>
                      ret lines2)))
                    else
                      bind (print (lit "Invalid selection. Try again."))
                           (fun _ => language_rounds py_int lines2)
                end
            end)
        end
    end).
Proof. destruct lines; reflexivity. Qed.

Lemma nth_code_in_catalog (i : Z) :
  1 <= i <= len languages -> In (nth_code i) (map snd languages).
Proof.
  intros H. unfold nth_code. apply nth_In. rewrite length_map.
  unfold len in H. lia.
Qed.

Lemma language_rounds_chosen (n : nat) :
  forall (lines : list str) (m m' : machine) (rest : list str),
    (List.length lines <= n)%nat ->
    language_rounds py_int lines m = (Ok rest, m') ->
    chosen m m'.
Proof.
  induction n as [|n IH]; intros lines m m' rest Hn; rewrite language_rounds_eq; run.
  - destruct lines; [discriminate | cbn in Hn; lia].
  - destruct lines as [|a lines1]; [discriminate|].
    cbn [List.length] in Hn.
    destruct (py_int a) as [i|]; run.
    2: { intros H. apply (IH lines1 _ _ _ ltac:(lia)) in H.
         destruct H as (i & j & Hi & Hj & H). exists i, j. auto. }
    destruct lines1 as [|b lines2]; [discriminate|].
    cbn [List.length] in Hn.
    destruct (py_int b) as [j|]; run.
    2: { intros H. apply (IH lines2 _ _ _ ltac:(lia)) in H.
         destruct H as (i' & j' & Hi & Hj & H). exists i', j'. auto. }
    destruct ((1 <=? i) && (i <=? len languages) && (1 <=? j) && (j <=? len languages))
      eqn:Hr; run.
    + intros H. injection H as _ <-. exists i, j. cbn [me]. repeat split; lia.
    + intros H. apply (IH lines2 _ _ _ ltac:(lia)) in H.
      destruct H as (i' & j' & Hi & Hj & H). exists i', j'. auto.
Qed.

Lemma print_catalog_prints (items : list (str * str)) :
  forall (i : Z) (m : machine),
    exists evs,
      print_catalog i items m = (Ok tt, mkMachine (me m) (env m) (out m ++ evs)) /\
      filter is_socket_op evs = [].
Proof.
  induction items as [|[name code] items IH]; intros i m.
  - exists []. rewrite app_nil_r. destruct m. split; reflexivity.
  - change (print_catalog i ((name, code) :: items))
      with (bind (print (str_of_int i ++ lit ". " ++ name ++ lit " (" ++ code ++ lit ")"))
                 (fun _ => print_catalog (frame:=frame) (audio:=audio) (i + 1) items)).
    unfold bind at 1, print, emit.
    destruct (IH (i + 1) (mkMachine (me m) (env m)
      (out m ++ [E_print (str_of_int i ++ lit ". " ++ name ++ lit " (" ++ code ++ lit ")")])))
      as (evs & H & F).
    rewrite H. cbn [me env out]. eexists. rewrite <- app_assoc. split; [reflexivity|].
    cbn. exact F.
Qed.

(** Whatever the user types, when [show_language_menu] returns, the two
    language codes are codes of the catalog, picked by two numbers between
    1 and 10, and no other attribute has changed: an answer that is not a
    number, or a number out of range, never reaches [source_lang] or
    [target_lang]. *)
Theorem language_menu_in_catalog (lines rest : list str) (m m' : machine) :
  show_language_menu py_int lines m = (Ok rest, m') ->
  In (source_lang (me m')) (map snd languages) /\
  In (target_lang (me m')) (map snd languages) /\
  exists i j,
    1 <= i <= len languages /\ 1 <= j <= len languages /\
    me m' = set_target_lang (nth_code j) (set_source_lang (nth_code i) (me m)).
Proof.
  unfold show_language_menu. run.
  destruct (print_catalog_prints languages 1
              (mkMachine (me m) (env m) (out m ++ [E_print (10 :: lit "Available Languages:")])))
    as (evs & Hc & _).
  rewrite Hc. intros H.
  apply (language_rounds_chosen (List.length lines) lines _ _ _ (le_n _)) in H.
  destruct H as (i & j & Hi & Hj & H). cbn [me] in H.
  split; [|split].
  - rewrite H. cbn. apply nth_code_in_catalog. exact Hi.
  - rewrite H. cbn. apply nth_code_in_catalog. exact Hj.
  - exists i, j. auto.
Qed.

(** Lines that are no numbers are passed over one by one, and the first
    pair of numbers in range is taken. *)
Lemma language_rounds_pick (junk : list str) :
  forall (a b : str) (rest : list str) (i j : Z) (m : machine),
    Forall (fun l => py_int l = None) junk ->
    py_int a = Some i -> py_int b = Some j ->
    1 <= i <= len languages -> 1 <= j <= len languages ->
    exists evs : list event,
      filter is_socket_op evs = [] /\
      language_rounds py_int (junk ++ a :: b :: rest) m
      = (Ok rest,
         mkMachine (set_target_lang (nth_code j) (set_source_lang (nth_code i) (me m)))
                   (env m) (out m ++ evs)).
Proof.
  induction junk as [|l junk IH]; intros a b rest i j m Hj Ha Hb Hi Hjr;
    rewrite language_rounds_eq; cbn [app]; run.
  - rewrite Ha. run. rewrite Hb.
    replace ((1 <=? i) && (i <=? len languages) && (1 <=? j) && (j <=? len languages))
      with true by (symmetry; lia).
    run. eexists. rewrite <- !app_assoc. split; [|reflexivity]. reflexivity.
  - inversion Hj as [|? ? Hl Hj']; subst. rewrite Hl. run.
    destruct (IH a b rest i j
                (mkMachine (me m) (env m)
                   ((out m ++ [E_print (10 :: lit "Select your language (number): ")])
                    ++ [E_print (lit "Please enter a number.")]))
                Hj' Ha Hb Hi Hjr) as (evs & F & H).
    rewrite H. cbn [me env out]. eexists. rewrite <- !app_assoc.
    split; [|reflexivity]. cbn. exact F.
Qed.


Lemma call_rounds_local (junk : list str) :
  forall (rest : list str) (m : machine),
    Forall not_an_option junk ->
    exists evs : list event,
      filter is_socket_op evs = [] /\
      call_rounds py_int (junk ++ lit "3" :: rest) m
      = (Ok rest, mkMachine (set_in_call false (me m)) (env m) (out m ++ evs)).
Proof.
  induction junk as [|l junk IH]; intros rest m Hj; cbn [app call_rounds]; run.
  - change (str_eqb (lit "3") (lit "1")) with false.
    change (str_eqb (lit "3") (lit "2")) with false.
    change (str_eqb (lit "3") (lit "3")) with true. run.
    eexists. split; [|reflexivity]. reflexivity.
  - inversion Hj as [|? ? (H1 & H2 & H3) Hj']; subst. rewrite H1, H2, H3. run.
    destruct (IH rest
                (mkMachine (me m) (env m)
                   ((out m ++ [E_print (lit "Select option (1-3): ")])
                    ++ [E_print (lit "Invalid choice")])) Hj') as (evs & F & H).
    rewrite H. cbn [me env out]. eexists. rewrite <- !app_assoc.
    split; [|reflexivity]. cbn. exact F.
Qed.


(** Option 1 of [setup_call] makes the program a host: [is_host] is set,
    then the port is read, with "5000" standing in for an empty line, and
    [in_call] is set last.  A port that is no number raises out of
    [setup_call], with [is_host] already set and [in_call] and [port] as
    they were. *)
Theorem setup_call_host (p : str) (rest : list str) (m : machine) :
  exists evs : list event,
    filter is_socket_op evs = [] /\
    setup_call py_int (lit "1" :: p :: rest) m
    = match py_int (str_or p (lit "5000")) with
      | Some n =>
          (Ok rest,
           mkMachine (set_in_call true (set_port n (set_is_host true (me m))))
                     (env m) (out m ++ evs))
      | None =>
          (Raise not_a_number,
           mkMachine (set_is_host true (me m)) (env m) (out m ++ evs))
      end.
Proof.
  unfold setup_call. cbn [call_rounds]. run.
  change (str_eqb (lit "1") (lit "1")) with true. unfold input, int_or_raise. run.
  destruct (py_int (str_or p (lit "5000"))); run;
    eexists; rewrite <- !app_assoc; (split; [|reflexivity]); reflexivity.
Qed.

(** Option 2 of [setup_call] makes the program a client: the host name is
    read, with "localhost" standing in for an empty line, then the port,
    with "5000" standing in for an empty line, and [in_call] is set last.
    A port that is no number raises out of [setup_call] with the host
    already changed. *)
Theorem setup_call_client (h p : str) (rest : list str) (m : machine) :
  exists evs : list event,
    filter is_socket_op evs = [] /\
    setup_call py_int (lit "2" :: h :: p :: rest) m
    = match py_int (str_or p (lit "5000")) with
      | Some n =>
          (Ok rest,
           mkMachine (set_in_call true
                        (set_port n
                           (set_host (str_or h (lit "localhost"))
                              (set_is_host false (me m)))))
                     (env m) (out m ++ evs))
      | None =>
          (Raise not_a_number,
           mkMachine (set_host (str_or h (lit "localhost")) (set_is_host false (me m)))
                     (env m) (out m ++ evs))
      end.
Proof.
  unfold setup_call. cbn [call_rounds]. run.
  change (str_eqb (lit "2") (lit "1")) with false.
  change (str_eqb (lit "2") (lit "2")) with true. unfold input, int_or_raise. run.
  destruct (py_int (str_or p (lit "5000"))); run;
    eexists; rewrite <- !app_assoc; (split; [|reflexivity]); reflexivity.
Qed.

End MenuFacts.

Section MainFacts.

Context {frame audio : Type}.
Context (cv2_resize : frame -> Z * Z -> frame).
Context (cv2_putText : frame -> str -> Z * Z -> frame).
Context (pickle_dumps : @pyobj frame -> bytes).
Context (pickle_loads : bytes -> result (@pyobj frame)).
Context (py_int : str -> option Z).

Local Abbreviation machine := (@machine frame audio).
Local Abbreviation event := (@event frame audio).
Local Arguments start : simpl never.
Local Arguments language_rounds : simpl never.
Local Arguments call_rounds : simpl never.
Local Arguments print_catalog : simpl never.
Local Arguments nth_code : simpl never.
Local Arguments nth_name : simpl never.
Local Arguments languages : simpl never.

(** Without a camera the program stops in [__init__]: the banner, the
    error and the closing line are printed, no menu is shown, no line of
    the user is read and no thread runs. *)
Theorem main_without_camera (lines : list str) (schedule : list thread)
        (m : machine) :
  main cv2_resize cv2_putText pickle_dumps pickle_loads py_int
       false lines schedule m
  = (Ok Exited,
     mkMachine init_self (env m)
       (out m ++ [E_print (lit "=== Real-Time Video Call Translator ===");
                  E_print (lit "Error: " ++ lit "Could not open video device");
                  E_print (lit "Program ended")])).
Proof.
  unfold main, VideoCallTranslator_init. run.
  rewrite <- !app_assoc. reflexivity.
Qed.


(** A run of [start] out of a call makes no socket operation. *)
Lemma local_start (schedule : list thread) (m : machine) :
  in_call (me m) = false ->
  socket (me m) = None ->
  connection (me m) = None ->
  local_step m (snd (start cv2_resize cv2_putText pickle_dumps pickle_loads
                            schedule m)).
Proof.
  intros Hi Hs Hc. unfold start. unfold bind at 1, modify_self at 1.
  set (m1 := mkMachine (set_running true (me m)) (env m) (out m)).
  assert (L1 : local_step m m1)
    by (subst m1; repeat split; exists []; rewrite app_nil_r; split; reflexivity).
  unfold bind.
  pose proof (local_run_threads cv2_resize cv2_putText pickle_dumps pickle_loads
                schedule NetStart m1 Hi ltac:(discriminate)) as L2.
  destruct (run_threads cv2_resize cv2_putText pickle_dumps pickle_loads
                        schedule NetStart m1) as [[[]|e] m2]; cbn [snd] in *.
  - pose proof (local_step_trans _ _ _ L1 L2) as L3.
    assert (L4 : local_step m2 (snd (cleanup m2))).
    { destruct L3 as (_ & H2 & H3 & _). apply local_cleanup; congruence. }
    destruct (cleanup m2) as [[[]|e] m3]; cbn [snd] in *;
      exact (local_step_trans _ _ _ L3 L4).
  - exact (local_step_trans _ _ _ L1 L2).
  - exact (local_step_trans _ _ _ L1 L2).
Qed.

(** With a camera, two language numbers and option 3, the whole program,
    from the banner to "Program ended", makes no socket operation, whatever
    lines the user typed in vain before, however the threads interleave
    and whatever the world answers; and it ends out of a call. *)
Theorem main_local_demo_no_socket_ops (junk1 junk2 rest : list str) (a b : str)
        (i j : Z) (schedule : list thread) (m : machine) :
  Forall (fun l => py_int l = None) junk1 ->
  py_int a = Some i -> py_int b = Some j ->
  1 <= i <= len languages -> 1 <= j <= len languages ->
  Forall not_an_option junk2 ->
  let m' := snd (main cv2_resize cv2_putText pickle_dumps pickle_loads py_int true
                      (junk1 ++ a :: b :: junk2 ++ lit "3" :: rest) schedule m) in
  in_call (me m') = false /\
  exists evs : list event, out m' = out m ++ evs /\ filter is_socket_op evs = [].
Proof.
  intros Hj1 Ha Hb Hi Hj Hj2. cbv zeta.
  unfold main, VideoCallTranslator_init, start_from_menus,
    show_language_menu, setup_call.
  run.
  destruct (print_catalog_prints languages 1
              (mkMachine init_self (env m)
                 ((out m ++ [E_print (lit "=== Real-Time Video Call Translator ===")])
                  ++ [E_print (10 :: lit "Available Languages:")])))
    as (e1 & H1 & F1).
  cbn [me env out] in H1. rewrite H1.
  destruct (language_rounds_pick py_int junk1 a b (junk2 ++ lit "3" :: rest) i j
              (mkMachine init_self (env m)
                 (((out m ++ [E_print (lit "=== Real-Time Video Call Translator ===")])
                   ++ [E_print (10 :: lit "Available Languages:")]) ++ e1)
                 : machine)
              Hj1 Ha Hb Hi Hj) as (e2 & F2 & H2).
  cbn [me env out] in H2. rewrite H2. run.
  match goal with
  | |- context [call_rounds py_int _ ?mm] =>
      destruct (call_rounds_local py_int junk2 rest mm Hj2) as (e3 & F3 & H3)
  end.
  cbn [me env out] in H3. rewrite H3.
  match goal with
  | |- context [start _ _ _ _ schedule ?mm] =>
      pose proof (local_start schedule mm eq_refl eq_refl eq_refl) as L;
      destruct (start cv2_resize cv2_putText pickle_dumps pickle_loads
                      schedule mm) as [[[]|e] m4]
  end;
    cbn [snd me env out] in *;
    destruct L as (Li & _ & _ & e4 & Lo & F4); cbn [me out] in Li, Lo;
    (split; [exact Li|]); rewrite Lo; eexists;
    (split; [rewrite <- !app_assoc; reflexivity|]);
    repeat (cbn [filter is_socket_op app];
            rewrite ?filter_app, ?F1, ?F2, ?F3, ?F4); reflexivity.
Qed.

End MainFacts.

(* ===================================================================== *)
(** ** More runs on concrete inputs *)
(* ===================================================================== *)

(** An empty line at the port prompt of a host stands for 5000. *)
Example host_default_port :
  let r := setup_call Demo.int [lit "1"; []] Demo.idle_client in
  fst r = Ok [] /\
  is_host (me (snd r)) = true /\ port (me (snd r)) = 5000 /\
  in_call (me (snd r)) = true.
Proof. vm_compute. repeat split. Qed.

(** A port that is no number stops [setup_call] half way. *)
Example host_bad_port :
  let r := setup_call Demo.int [lit "1"; lit "abc"]
                      (Demo.boot init_self Demo.silent) in
  fst r = Raise not_a_number /\
  is_host (me (snd r)) = true /\ in_call (me (snd r)) = false.
Proof. vm_compute. repeat split. Qed.

(** A camera that fails to release at shutdown is reported by the main
    block, which still prints its closing line. *)
Example main_reports_cleanup_failure :
  let m := Demo.boot init_self
             (set_teardown_replies [Raise Demo.device_busy]
                (set_cam_replies [Some [x10; x20]]
                   (set_key_replies [113] Demo.silent))) in
  let r := main Demo.resize Demo.putText Demo.dumps Demo.loads Demo.int true
                Demo.typed Demo.local_demo_schedule m in
  fst r = Ok Exited /\
  skipn (List.length (out (snd r)) - 3) (out (snd r))
  = [E_cap_release; E_print (lit "Error: device busy"); E_print (lit "Program ended")].
Proof. vm_compute. repeat split. Qed.

Lemma audio_capture_outcome_witness :
  let m' := snd (audio_capture_iteration Demo.mic_heard) in
  fst (audio_capture_iteration Demo.mic_heard) = Ok tt /\
  audio_queue (me m') = [7%nat] /\
  out m' = [E_listen].
Proof.
  exact (audio_capture_outcome Demo.mic_heard (Ok 7%nat) [] eq_refl).
Defined.

Lemma translation_outcome_witness :
  let m' := snd (translation_iteration Demo.synthesis_down) in
  fst (translation_iteration Demo.synthesis_down) = Ok tt /\
  text_queue (me m') = [] /\
  translation_queue (me m') = [lit "namaste"] /\
  exists tail,
    out m' = [] ++ E_translate (lit "hello") (lit "en") (lit "hi")
             :: E_gtts (lit "namaste") (lit "hi") :: tail.
Proof.
  exact (translation_outcome Demo.synthesis_down (lit "hello") []
           (Ok (lit "namaste")) [] eq_refl eq_refl eq_refl).
Defined.

Lemma video_pass_sends_shown_frame_witness :
  let shown := PyFrame (overlay Demo.putText (me Demo.filming)
                                (Demo.resize [x10; x20] frame_size)) in
  let m' := snd (video_capture_iteration Demo.resize Demo.putText Demo.filming) in
  network_queue (me m') = [(lit "video", shown)] /\
  remote_frame (me m') = PyNone /\
  out m' = [E_cap_read; E_imshow (lit "Video Translator") shown; E_waitKey].
Proof.
  exact (video_pass_sends_shown_frame Demo.resize Demo.putText Demo.filming
           [x10; x20] [] eq_refl).
Defined.

Lemma video_quit_key_witness :
  running (me (snd (video_capture_iteration Demo.resize Demo.putText Demo.filming)))
  = false.
Proof.
  exact (video_quit_key Demo.resize Demo.putText Demo.filming [x10; x20] [] eq_refl).
Defined.

Lemma video_capture_failure_witness :
  let m' := snd (video_capture_iteration Demo.resize Demo.putText Demo.camera_dark) in
  me m' = me Demo.camera_dark /\
  key_replies (env m') = [113] /\
  out m' = [E_cap_read; E_print (lit "Failed to capture frame"); E_sleep].
Proof.
  exact (video_capture_failure Demo.resize Demo.putText Demo.camera_dark eq_refl).
Defined.

Lemma header_not_ready_witness :
  receive_attempt Demo.loads Demo.short_header_stream
  = (Ok Continue,
     mkMachine (me Demo.short_header_stream)
               (set_recv_replies [] (env Demo.short_header_stream))
               (out Demo.short_header_stream ++ [E_recv 0%nat 9])).
Proof.
  apply (header_not_ready Demo.loads Demo.short_header_stream 0%nat
           (Ok [x01; x00; x05]) []); [reflexivity | reflexivity | discriminate].
Defined.

Lemma unknown_type_ignored_witness :
  exists evs,
    Forall (is_recv_on 0%nat) evs /\
    receive_attempt Demo.loads Demo.unknown_type_stream
    = (Ok Fallthrough,
       mkMachine (me Demo.unknown_type_stream)
                 (set_recv_replies [] (env Demo.unknown_type_stream))
                 (out Demo.unknown_type_stream ++ evs)).
Proof.
  apply (unknown_type_ignored Demo.loads Demo.unknown_type_stream 0%nat
           [x07; x00; x00; x00; x00; x00; x00; x00; x01] 7 1 [[x2a]] []);
    try reflexivity; try discriminate.
  constructor; [discriminate | constructor].
Defined.

Lemma payload_timeout_discards_witness :
  exists evs,
    Forall (is_recv_on 0%nat) evs /\
    receive_attempt Demo.loads Demo.stalled_stream
    = (Ok Continue,
       mkMachine (me Demo.stalled_stream)
                 (set_recv_replies [] (env Demo.stalled_stream))
                 (out Demo.stalled_stream ++ evs)).
Proof.
  apply (payload_timeout_discards Demo.loads Demo.stalled_stream 0%nat
           Demo.video_header_5 0 5 [[x01; x02]] Demo.timed_out []);
    try reflexivity.
  constructor; [discriminate | constructor].
Defined.

Lemma text_message_round_trip_witness :
  exists header,
    (exists tail,
       out (snd (send_attempt Demo.dumps Demo.send_hello))
       = out Demo.send_hello ++ E_sendall 0%nat (header ++ [x68; x65; x6c; x6c; x6f]) :: tail) /\
    forall (chunks : list bytes) (rest : list (result bytes)),
      Forall (fun c => c <> []) chunks ->
      List.concat chunks = [x68; x65; x6c; x6c; x6f] ->
      recv_replies (env Demo.idle_client) = Ok header :: map Ok chunks ++ rest ->
      exists evs,
        Forall (is_recv_on 0%nat) evs /\
        receive_attempt Demo.loads Demo.idle_client
        = (Ok Fallthrough,
           mkMachine (me Demo.idle_client) (set_recv_replies rest (env Demo.idle_client))
                     (out Demo.idle_client ++ evs ++ [E_print (lit "Received text: " ++ lit "hello")])).
Proof.
  apply (text_message_round_trip Demo.dumps Demo.loads Demo.send_hello Demo.idle_client
           (lit "hello") [] 0%nat 0%nat [x68; x65; x6c; x6c; x6f]); reflexivity.
Defined.

Lemma video_message_round_trip_witness :
  exists header,
    (exists tail,
       out (snd (send_attempt Demo.dumps Demo.send_frame))
       = out Demo.send_frame ++ E_sendall 0%nat (header ++ Demo.dumps Demo.a_frame) :: tail) /\
    forall (chunks : list bytes) (rest : list (result bytes)),
      Forall (fun c => c <> []) chunks ->
      List.concat chunks = Demo.dumps Demo.a_frame ->
      recv_replies (env Demo.idle_client) = Ok header :: map Ok chunks ++ rest ->
      exists evs,
        Forall (is_recv_on 0%nat) evs /\
        receive_attempt Demo.loads Demo.idle_client
        = (Ok Fallthrough,
           mkMachine (set_remote_frame Demo.a_frame (me Demo.idle_client))
                     (set_recv_replies rest (env Demo.idle_client))
                     (out Demo.idle_client ++ evs)).
Proof.
  apply (video_message_round_trip Demo.dumps Demo.loads Demo.send_frame Demo.idle_client
           Demo.a_frame [] 0%nat 0%nat); reflexivity.
Defined.

Lemma messages_sent_in_order_witness :
  exists m' evs,
    network_thread_from Demo.dumps Demo.loads 2 NetLoop Demo.two_queued
    = (Ok StillRunning, m') /\
    network_queue (me m') = [(lit "text", PyStr (lit "yo"))] /\
    out m' = out Demo.two_queued ++ evs /\
    sent evs = [[x01; x00; x00; x00; x00; x00; x00; x00; x02; x68; x69];
                [x00; x00; x00; x00; x00; x00; x00; x00; x03; x46; x10; x20]].
Proof.
  apply (messages_sent_in_order Demo.dumps Demo.loads
           [(lit "text", PyStr (lit "hi")); (lit "video", Demo.a_frame)]
           [[x01; x00; x00; x00; x00; x00; x00; x00; x02; x68; x69];
            [x00; x00; x00; x00; x00; x00; x00; x00; x03; x46; x10; x20]]
           [(lit "text", PyStr (lit "yo"))] Demo.two_queued 0%nat);
    try reflexivity.
  constructor; [|constructor; [|constructor]].
  - exists 1, [x68; x69], [x01; x00; x00; x00; x00; x00; x00; x00; x02].
    split; [right|]; repeat split.
  - exists 0, [x46; x10; x20], [x00; x00; x00; x00; x00; x00; x00; x00; x03].
    split; [left|]; repeat split.
Defined.

Lemma loop_exit_closes_witness :
  exists w',
    network_thread_step Demo.dumps Demo.loads NetLoop Demo.host_after_quit
    = (Ok NetDone,
       mkMachine (me Demo.host_after_quit) w'
         (out Demo.host_after_quit ++ [E_close 1%nat; E_close 0%nat]
          ++ [E_print (lit "Network connection closed")])).
Proof.
  exact (loop_exit_closes Demo.dumps Demo.loads Demo.host_after_quit
           (or_introl eq_refl)).
Defined.

Lemma fatal_send_error_ends_transport_witness :
  exists w',
    network_thread_step Demo.dumps Demo.loads NetLoop Demo.send_fails
    = (Ok NetDone,
       mkMachine (me (snd (send_block Demo.dumps Demo.send_fails))) w'
         (out (snd (send_block Demo.dumps Demo.send_fails))
          ++ E_print (lit "Send error: " ++ lit "device busy")
          :: [E_close 1%nat; E_close 0%nat]
          ++ [E_print (lit "Network connection closed")])).
Proof.
  apply (fatal_send_error_ends_transport Demo.dumps Demo.loads Demo.send_fails
           (snd (send_block Demo.dumps Demo.send_fails)) Demo.device_busy);
    try reflexivity.
  discriminate.
Defined.

Lemma fatal_receive_error_ends_transport_witness :
  exists w',
    network_thread_step Demo.dumps Demo.loads NetLoop Demo.recv_fails
    = (Ok NetDone,
       mkMachine (me Demo.recv_fails) w'
         (out Demo.recv_fails
          ++ [E_recv 1%nat 9; E_print (lit "Receive error: " ++ lit "device busy")]
          ++ [E_close 1%nat; E_close 0%nat]
          ++ [E_print (lit "Network connection closed")])).
Proof.
  apply (fatal_receive_error_ends_transport Demo.dumps Demo.loads
           Demo.recv_fails Demo.recv_fails 1%nat Demo.device_busy []); reflexivity.
Defined.

Lemma network_setup_success_witness :
  let r := network_thread_step Demo.dumps Demo.loads NetStart Demo.host_before_setup in
  fst r = Ok NetLoop /\
  socket (me (snd r)) = Some 0%nat /\
  connection (me (snd r)) = Some 1%nat /\
  filter is_socket_op (out (snd r))
  = [] ++ [E_socket 0%nat; E_setsockopt 0%nat; E_bind 0%nat (lit "0.0.0.0", 5000);
           E_sock_listen 0%nat; E_accept 0%nat 1%nat] ++ [E_settimeout 1%nat].
Proof.
  exact (network_setup_success Demo.dumps Demo.loads Demo.host_before_setup
           eq_refl eq_refl).
Defined.

Lemma network_setup_failure_witness :
  let r := network_thread_step Demo.dumps Demo.loads NetStart Demo.port_taken in
  fst r = Ok NetDone /\
  socket (me (snd r)) = Some 0%nat /\
  connection (me (snd r)) = None /\
  filter is_socket_op (out (snd r))
  = [] ++ [E_socket 0%nat; E_setsockopt 0%nat; E_bind 0%nat (lit "0.0.0.0", 5000)]
    ++ [E_close 0%nat] /\
  In (E_print (lit "Network setup error: " ++ lit "device busy")) (out (snd r)).
Proof.
  exact (network_setup_failure Demo.dumps Demo.loads Demo.port_taken Demo.device_busy
           eq_refl eq_refl eq_refl eq_refl).
Defined.

Lemma language_menu_in_catalog_witness :
  let m' := snd (show_language_menu Demo.int Demo.typed Demo.idle_client) in
  In (source_lang (me m')) (map snd languages) /\
  In (target_lang (me m')) (map snd languages) /\
  exists i j,
    1 <= i <= len languages /\ 1 <= j <= len languages /\
    me m' = set_target_lang (nth_code j)
              (set_source_lang (nth_code i) (me Demo.idle_client)).
Proof.
  apply (language_menu_in_catalog Demo.int Demo.typed [lit "9"; lit "3"]
           Demo.idle_client
           (snd (show_language_menu Demo.int Demo.typed Demo.idle_client))).
  vm_compute. reflexivity.
Defined.



Lemma main_local_demo_no_socket_ops_witness :
  let m' := snd (main Demo.resize Demo.putText Demo.dumps Demo.loads Demo.int true
                      Demo.typed Demo.local_demo_schedule Demo.local_demo) in
  in_call (me m') = false /\
  exists evs, out m' = out Demo.local_demo ++ evs /\ filter is_socket_op evs = [].
Proof.
  apply (main_local_demo_no_socket_ops Demo.resize Demo.putText Demo.dumps Demo.loads
           Demo.int [lit "x"] [lit "9"] [] (lit "2") (lit "1") 2 1
           Demo.local_demo_schedule Demo.local_demo);
    try reflexivity; try (cbv; split; discriminate).
  - constructor; [reflexivity | constructor].
  - constructor; [repeat split | constructor].
Defined.
